(** * HllSet wrapper (core/hllset_wrapper.py): a shallow embedding

    The Python class [HllSet] wraps a Julia [HllSet] object and forwards
    every operation to the Julia module [Main] (HllSets.jl).  The embedding
    has three layers:

    - [Py]: the Python values, exceptions and float helpers the wrapper uses;
    - [Main]: the Julia side.  HllSets.jl is not part of the Python sources,
      so its operations are modelled from the specification;
    - [HllSet]: the wrapper class itself, method by method, as programs of a
      state-and-exception monad over a store that holds the Python
      instances and the Julia objects they reference. *)

From Stdlib Require Import ZArith List Bool Lia Strings.String Strings.Ascii Strings.Byte.
From Stdlib Require Import Floats.PrimFloat Numbers.Cyclic.Int63.Uint63.
From stdpp Require Import base option list.

Set Warnings "-inexact-float".
Set Default Proof Using "Type".

Local Open Scope Z_scope.

(** ** Python values and exceptions *)

Module Py.

(** Exceptions that can reach a caller of the wrapper.  [ConfigError],
    [ConfigMismatchError] and [InputError] are raised on the Julia side;
    [DanglingReference] has no Python counterpart: it is the outcome of
    dereferencing an address that the store does not hold, which a Python
    program cannot do. *)
Inductive exc : Type :=
| ConfigError
| ConfigMismatchError
| InputError
| ValueError (msg : string)
| ZeroDivisionError
| UnicodeDecodeError
| DanglingReference.

Inductive result (A : Type) : Type :=
| Ok (a : A)
| Raise (e : exc).
Arguments Ok {A} a.
Arguments Raise {A} e.

(** The values of type [Any] that the wrapper can be handed.  A [str] is
    kept as its UTF-8 encoding; [VObj l] is a reference to the [HllSet]
    instance stored at address [l]. *)
Inductive value : Type :=
| VNone
| VBool (b : bool)
| VInt (z : Z)
| VFloat (f : float)
| VStr (s : string)
| VBytes (b : list byte)
| VObj (l : nat).

(** [isinstance(v, HllSet)]. *)
Definition is_HllSet (v : value) : bool :=
  match v with VObj _ => true | _ => false end.

(** The builtins [min(a, b)] and [max(a, b)] on floats: the first argument
    is kept unless the second compares strictly below (above) it. *)
Definition min (a b : float) : float := if PrimFloat.ltb b a then b else a.
Definition max (a b : float) : float := if PrimFloat.ltb a b then b else a.

(** [x == 0] for a float [x]. *)
Definition is_zero (x : float) : bool := PrimFloat.eqb x 0%float.

(** [a / b] on floats: IEEE division, except that a zero divisor raises. *)
Definition truediv (a b : float) : result float :=
  if is_zero b then Raise ZeroDivisionError else Ok (PrimFloat.div a b).

(** Strict UTF-8 validation, as [bytes.decode()] performs it: shortest
    encodings only, no surrogates, nothing above U+10FFFF. *)
Definition continuation (b : byte) : bool :=
  let n := Z.of_N (Byte.to_N b) in (128 <=? n) && (n <=? 191).

Definition between (lo hi : Z) (b : byte) : bool :=
  let n := Z.of_N (Byte.to_N b) in (lo <=? n) && (n <=? hi).

Fixpoint utf8_valid (bs : list byte) : bool :=
  match bs with
  | [] => true
  | b0 :: t0 =>
      let n := Z.of_N (Byte.to_N b0) in
      if n <=? 127 then utf8_valid t0
      else if (194 <=? n) && (n <=? 223) then
        match t0 with
        | b1 :: t1 => continuation b1 && utf8_valid t1
        | _ => false
        end
      else if (224 <=? n) && (n <=? 239) then
        match t0 with
        | b1 :: b2 :: t2 =>
            (if n =? 224 then between 160 191 b1
             else if n =? 237 then between 128 159 b1
             else continuation b1)
            && continuation b2 && utf8_valid t2
        | _ => false
        end
      else if (240 <=? n) && (n <=? 244) then
        match t0 with
        | b1 :: b2 :: b3 :: t3 =>
            (if n =? 240 then between 144 191 b1
             else if n =? 244 then between 128 143 b1
             else continuation b1)
            && continuation b2 && continuation b3 && utf8_valid t3
        | _ => false
        end
      else false
  end.

(** [b.decode()]. *)
Definition decode (b : list byte) : result string :=
  if utf8_valid b then Ok (string_of_list_byte b) else Raise UnicodeDecodeError.

End Py.
Export Py.

(** ** The store and the monad of wrapper programs *)

(** Modelled from the spec: the sketch of section 3, whose declaration is
    in HllSets.jl and not in the sources: a precision and an array of
    registers, each register one word of rank flags (bit [r] set: rank [r]
    was observed). *)
Record jl_HllSet : Type := mk_jl { jl_P : Z; counts : list Z }.

(** The attributes of a Python [HllSet] instance; [hll] is the address of
    the Julia object it wraps. *)
Module Instance.
Record t : Type := mk { P : Z; tau : float; rho : float; seed : Z; hll : nat }.
End Instance.

(** [BSSMetrics], the dataclass. *)
Module BSSMetrics.
Record t : Type := mk { tau : float; rho : float }.
End BSSMetrics.

(** Both heaps grow by appending: an address is an index, and a fresh
    address is the current length. *)
Record store : Type := mk_store {
  py_heap : list Instance.t;
  jl_heap : list jl_HllSet
}.

Definition M (A : Type) : Type := store -> result A * store.

Definition ret {A} (a : A) : M A := fun s => (Ok a, s).

Definition raise {A} (e : exc) : M A := fun s => (Raise e, s).

Definition bind {A B} (m : M A) (k : A -> M B) : M B :=
  fun s =>
    match m s with
    | (Ok a, s') => k a s'
    | (Raise e, s') => (Raise e, s')
    end.

Notation "x <- m ;; k" := (bind m (fun x => k))
  (at level 100, m at next level, right associativity).
Notation "m ;;; k" := (bind m (fun _ => k))
  (at level 100, right associativity).

Definition lift {A} (r : result A) : M A :=
  match r with Ok a => ret a | Raise e => raise e end.

(** [for x in xs: body(x)]. *)
Fixpoint for_each {A} (body : A -> M unit) (xs : list A) : M unit :=
  match xs with
  | [] => ret tt
  | x :: xs' => body x ;;; for_each body xs'
  end.

Definition py_get (l : nat) : M Instance.t :=
  fun s =>
    match py_heap s !! l with
    | Some o => (Ok o, s)
    | None => (Raise DanglingReference, s)
    end.

Definition py_alloc (o : Instance.t) : M nat :=
  fun s => (Ok (length (py_heap s)), mk_store (py_heap s ++ [o]) (jl_heap s)).

(** Attribute assignment [l.attr = v], as an update [f] of the instance. *)
Definition py_update (l : nat) (f : Instance.t -> Instance.t) : M unit :=
  fun s =>
    match py_heap s !! l with
    | Some o => (Ok tt, mk_store (<[l := f o]> (py_heap s)) (jl_heap s))
    | None => (Raise DanglingReference, s)
    end.

Definition set_tau (v : float) (o : Instance.t) : Instance.t :=
  Instance.mk (Instance.P o) v (Instance.rho o) (Instance.seed o) (Instance.hll o).

Definition set_rho (v : float) (o : Instance.t) : Instance.t :=
  Instance.mk (Instance.P o) (Instance.tau o) v (Instance.seed o) (Instance.hll o).

Definition set_hll (v : nat) (o : Instance.t) : Instance.t :=
  Instance.mk (Instance.P o) (Instance.tau o) (Instance.rho o) (Instance.seed o) v.

Definition jl_get (r : nat) : M jl_HllSet :=
  fun s =>
    match jl_heap s !! r with
    | Some h => (Ok h, s)
    | None => (Raise DanglingReference, s)
    end.

Definition jl_alloc (h : jl_HllSet) : M nat :=
  fun s => (Ok (length (jl_heap s)), mk_store (py_heap s) (jl_heap s ++ [h])).

Definition jl_put (r : nat) (h : jl_HllSet) : M unit :=
  fun s =>
    match jl_heap s !! r with
    | Some _ => (Ok tt, mk_store (py_heap s) (<[r := h]> (jl_heap s)))
    | None => (Raise DanglingReference, s)
    end.

(** ** The Julia side: [Main] *)

(** HllSets.jl is not among the Python sources.  The specification fixes
    its element hash (4.1) and the float arithmetic of its estimator (4.3)
    by contract only, so the two are parameters of the development. *)
Class Engine : Type := mk_engine {
  hash_element : Z -> value -> option (nat * Z);
  estimate : list Z -> float
}.

Module Main.

(** Modelled from the spec: the least supported precision, absent from the
    sources: "P in [4, 18]" (6). *)
Definition P_min : Z := 4.

(** Modelled from the spec: the greatest supported precision, absent from
    the sources: "P in [4, 18]" (6). *)
Definition P_max : Z := 18.

(** Modelled from the spec: [new(P)] of 4.2, absent from the sources:
    M = 2^P registers with every flag unset. *)
Definition blank (P : Z) : jl_HllSet :=
  mk_jl P (replicate (Z.to_nat (2 ^ P)) 0).

(** Modelled from the spec: [create(P, seed)] of 6, absent from the
    sources: a ConfigError outside the supported range. *)
Definition create (P : Z) : result jl_HllSet :=
  if (P_min <=? P) && (P <=? P_max) then Ok (blank P) else Raise ConfigError.

(** Modelled from the spec: [insert(index, rank)] of 4.2, absent from the
    sources: set flag [rank] of register [index]. *)
Definition insert (index : nat) (rank : Z) (c : list Z) : list Z :=
  alter (fun w => Z.lor w (Z.shiftl 1 rank)) index c.

(** Modelled from the spec: the register-wise operators of 4.4, absent from
    the sources.  Each one fails with a ConfigMismatchError when the
    precisions differ and otherwise builds a new register array. *)
Definition registerwise (f : Z -> Z -> Z) (x y : jl_HllSet) : result jl_HllSet :=
  if jl_P x =? jl_P y
  then Ok (mk_jl (jl_P x) (zip_with f (counts x) (counts y)))
  else Raise ConfigMismatchError.

(** Modelled from the spec: [union(A, B)] of 4.4, absent from the sources:
    register-wise OR of the flag vectors. *)
Definition union_v : jl_HllSet -> jl_HllSet -> result jl_HllSet :=
  registerwise Z.lor.

(** Modelled from the spec: [intersection(A, B)] of 4.4, absent from the
    sources: register-wise AND of the flag vectors. *)
Definition intersect_v : jl_HllSet -> jl_HllSet -> result jl_HllSet :=
  registerwise Z.land.

(** Modelled from the spec: [complement(A, B)] of 4.4, absent from the
    sources: register-wise AND-NOT of A's flags by B's flags. *)
Definition set_comp_v : jl_HllSet -> jl_HllSet -> result jl_HllSet :=
  registerwise Z.ldiff.

(** Modelled from the spec: [difference(A, B) -> (deleted, retained, new)]
    of 4.4, absent from the sources: flags of A not in B, flags in both,
    flags of B not in A. *)
Definition diff_v (x y : jl_HllSet)
  : result (jl_HllSet * jl_HllSet * jl_HllSet) :=
  match registerwise Z.ldiff x y, registerwise Z.land x y,
        registerwise (fun a b => Z.ldiff b a) x y with
  | Ok d, Ok r, Ok n => Ok (d, r, n)
  | Raise e, _, _ | _, Raise e, _ | _, _, Raise e => Raise e
  end.

(** Modelled from the spec: [equals(A, B)] of 4.4, absent from the sources:
    bit-for-bit identity of the register arrays, a ConfigMismatchError when
    the precisions differ. *)
Definition isequal_v (x y : jl_HllSet) : result bool :=
  if jl_P x =? jl_P y
  then Ok (bool_decide (counts x = counts y))
  else Raise ConfigMismatchError.

Section calls.
Context {E : Engine}.

(** Modelled from the spec: [Main.HllSet(P)], absent from the sources: a
    new Julia object, or the ConfigError of [create]. *)
Definition HllSet (P : Z) : M nat :=
  h <- lift (create P) ;; jl_alloc h.

(** Modelled from the spec: [add!(h, element)], absent from the sources:
    the only operation that writes to an existing object (5); an element
    that cannot be hashed raises an InputError and leaves the registers as
    they were (7). *)
Definition add (r : nat) (element : value) : M unit :=
  h <- jl_get r ;;
  match hash_element (jl_P h) element with
  | Some (index, rank) => jl_put r (mk_jl (jl_P h) (insert index rank (counts h)))
  | None => raise InputError
  end.

(** Modelled from the spec: [Main.count(h)], absent from the sources: the
    estimate of 4.3, read off the registers. *)
Definition count (r : nat) : M float :=
  h <- jl_get r ;; ret (estimate (counts h)).

(** Modelled from the spec: the operators of 4.4 as calls, absent from the
    sources: they read their operands and allocate their results ("return
    NEW sketch(es); operands are never mutated"). *)
Definition binary (op : jl_HllSet -> jl_HllSet -> result jl_HllSet)
  (a b : nat) : M nat :=
  x <- jl_get a ;; y <- jl_get b ;; z <- lift (op x y) ;; jl_alloc z.

(** Modelled from the spec: [Main.union(a, b)], absent from the sources. *)
Definition union : nat -> nat -> M nat := binary union_v.

(** Modelled from the spec: [Main.intersect(a, b)], absent from the
    sources. *)
Definition intersect : nat -> nat -> M nat := binary intersect_v.

(** Modelled from the spec: [Main.set_comp(a, b)], absent from the
    sources. *)
Definition set_comp : nat -> nat -> M nat := binary set_comp_v.

(** Modelled from the spec: [Main.diff(a, b)], absent from the sources:
    three new objects, deleted, retained and new. *)
Definition diff (a b : nat) : M (nat * nat * nat) :=
  x <- jl_get a ;; y <- jl_get b ;;
  t <- lift (diff_v x y) ;;
  let '(d, r, n) := t in
  deleted <- jl_alloc d ;; retained <- jl_alloc r ;; new <- jl_alloc n ;;
  ret (deleted, retained, new).

(** Modelled from the spec: [Main.isequal(a, b)], absent from the sources:
    it reads both objects and allocates nothing. *)
Definition isequal (a b : nat) : M bool :=
  x <- jl_get a ;; y <- jl_get b ;; lift (isequal_v x y).

End calls.
End Main.

(** ** The wrapper class *)

Module HllSet.
Import Instance.

Definition default_P : Z := 10.
Definition default_tau : float := 0.7%float.
Definition default_rho : float := 0.21%float.
Definition default_seed : Z := 42.

Section methods.
Context {E : Engine}.

(** [HllSet(P, tau, rho, seed)]: [__init__] stores the four arguments and
    then the Julia object it creates.  An instance whose [__init__] raises
    is never handed to anyone, so the store records the instance once it
    is complete. *)
Definition __init__ (P : Z) (tau rho : float) (seed : Z) : M nat :=
  h <- Main.HllSet P ;;
  py_alloc (mk P tau rho seed h).

Definition add (self : nat) (element : value) : M unit :=
  o <- py_get self ;;
  Main.add (hll o) element.

Definition add_batch (self : nat) (elements : list value) : M unit :=
  for_each (fun element => o <- py_get self ;; Main.add (hll o) element) elements.

(** [float(Main.count(self.hll))]: the estimate is a float already. *)
Definition count (self : nat) : M float :=
  o <- py_get self ;;
  Main.count (hll o).

Definition _calculate_bss_metrics (self other : nat) : M BSSMetrics.t :=
  count_b <- count other ;;
  if is_zero count_b then ret (BSSMetrics.mk 0%float 0%float)
  else
    s <- py_get self ;; o <- py_get other ;;
    intersection_hll <- Main.intersect (hll s) (hll o) ;;
    intersection_count <- Main.count intersection_hll ;;
    s <- py_get self ;; o <- py_get other ;;
    t <- Main.diff (hll s) (hll o) ;;
    let '(deleted_hll, retained_hll, new_hll) := t in
    deleted_count <- Main.count deleted_hll ;;
    tau <- lift (truediv intersection_count count_b) ;;
    rho <- lift (truediv deleted_count count_b) ;;
    ret (BSSMetrics.mk tau rho).

Definition from_julia (julia_hll : nat) (P : Z) (tau rho : float) (seed : Z)
  : M nat :=
  hll <- __init__ P tau rho seed ;;
  py_update hll (set_hll julia_hll) ;;;
  ret hll.

Definition union (self other : nat) : M nat :=
  s <- py_get self ;; o <- py_get other ;;
  result <- Main.union (hll s) (hll o) ;;
  s <- py_get self ;;
  union_set <- from_julia result (P s) default_tau default_rho default_seed ;;
  s <- py_get self ;; o <- py_get other ;;
  py_update union_set (set_tau (min (tau s) (tau o))) ;;;
  s <- py_get self ;; o <- py_get other ;;
  py_update union_set (set_rho (max (rho s) (rho o))) ;;;
  ret union_set.

Definition intersection (self other : nat) : M nat :=
  s <- py_get self ;; o <- py_get other ;;
  result <- Main.intersect (hll s) (hll o) ;;
  s <- py_get self ;;
  intersect_set <- from_julia result (P s) default_tau default_rho default_seed ;;
  s <- py_get self ;; o <- py_get other ;;
  py_update intersect_set (set_tau (min (tau s) (tau o))) ;;;
  s <- py_get self ;; o <- py_get other ;;
  py_update intersect_set (set_rho (max (rho s) (rho o))) ;;;
  ret intersect_set.

Definition difference (self other : nat) : M (nat * nat * nat) :=
  s <- py_get self ;; o <- py_get other ;;
  t <- Main.diff (hll s) (hll o) ;;
  let '(deleted, retained, new) := t in
  s <- py_get self ;;
  deleted_set <- from_julia deleted (P s) default_tau default_rho default_seed ;;
  s <- py_get self ;;
  retained_set <- from_julia retained (P s) default_tau default_rho default_seed ;;
  s <- py_get self ;;
  new_set <- from_julia new (P s) default_tau default_rho default_seed ;;
  s <- py_get self ;; o <- py_get other ;;
  let combined_tau := min (tau s) (tau o) in
  s <- py_get self ;; o <- py_get other ;;
  let combined_rho := max (rho s) (rho o) in
  for_each (fun result_set =>
              py_update result_set (set_tau combined_tau) ;;;
              py_update result_set (set_rho combined_rho))
           [deleted_set; retained_set; new_set] ;;;
  ret (deleted_set, retained_set, new_set).

Definition complement (self other : nat) : M nat :=
  s <- py_get self ;; o <- py_get other ;;
  result <- Main.set_comp (hll s) (hll o) ;;
  s <- py_get self ;;
  comp_set <- from_julia result (P s) default_tau default_rho default_seed ;;
  metrics <- _calculate_bss_metrics self other ;;
  py_update comp_set (set_tau (BSSMetrics.tau metrics)) ;;;
  py_update comp_set (set_rho (BSSMetrics.rho metrics)) ;;;
  ret comp_set.

Definition calculate_bss_to (self other : nat) : M BSSMetrics.t :=
  _calculate_bss_metrics self other.

Definition __eq__ (self : nat) (other : value) : M bool :=
  match other with
  | VObj other' =>
      s <- py_get self ;; o <- py_get other' ;;
      Main.isequal (hll s) (hll o)
  | _ => ret false
  end.

(** [x.decode() if isinstance(x, bytes) else x]. *)
Definition decoded (x : value) : M value :=
  match x with
  | VBytes b => s <- lift (decode b) ;; ret (VStr s)
  | _ => ret x
  end.

(** A dict is the list of its items in iteration order; an empty one is
    falsy. *)
Definition from_dict (redis_data : list (value * value))
  (P : Z) (tau rho : float) (seed : Z) : M nat :=
  match redis_data with
  | [] => raise (ValueError "Redis data is empty or invalid")
  | _ =>
      hll <- __init__ P tau rho seed ;;
      for_each (fun item : value * value =>
                  let (key, value) := item in
                  k <- decoded key ;; add hll k ;;;
                  v <- decoded value ;; add hll v)
               redis_data ;;;
      ret hll
  end.

End methods.
End HllSet.

(** ** Reference programs and predicates used by the statements *)

Section reference.
Context {E : Engine}.

(** The specification's wording of batch insertion (6): "sequential
    application of insert", here as one [add] call after the other. *)
Fixpoint add_each (self : nat) (elements : list value) : M unit :=
  match elements with
  | [] => ret tt
  | element :: rest => HllSet.add self element ;;; add_each self rest
  end.

(** The specification's wording of the BSS metrics (4.5), on the register
    arrays of two sketches of one precision. *)
Definition coverage_and_exclusion (x y : jl_HllSet) : BSSMetrics.t :=
  let countB := estimate (counts y) in
  if is_zero countB then BSSMetrics.mk 0%float 0%float
  else
    BSSMetrics.mk
      (PrimFloat.div (estimate (zip_with Z.land (counts x) (counts y))) countB)
      (PrimFloat.div (estimate (zip_with Z.ldiff (counts x) (counts y))) countB).

End reference.

(** The instance at address [l] is [o] and the Julia object it wraps is [h]. *)
Definition wraps (s : store) (l : nat) (o : Instance.t) (h : jl_HllSet) : Prop :=
  py_heap s !! l = Some o /\ jl_heap s !! Instance.hll o = Some h.

(** A sketch as the constructor and the operators leave it: the instance
    carries the precision of its Julia object, a supported one. *)
Definition sketch (s : store) (l : nat) (o : Instance.t) (h : jl_HllSet) : Prop :=
  wraps s l o h /\ jl_P h = Instance.P o /\
  Main.P_min <= Instance.P o <= Main.P_max.

(** The address is not in use. *)
Definition fresh_py (s : store) (l : nat) : Prop := py_heap s !! l = None.
Definition fresh_jl (s : store) (r : nat) : Prop := jl_heap s !! r = None.

(** After a call, address [l] still holds the instance [o], and [o] still
    wraps the Julia object [h]: attributes and registers are as before. *)
Definition unchanged (s' : store) (l : nat) (o : Instance.t) (h : jl_HllSet)
  : Prop :=
  wraps s' l o h.

(** A result [r] of a call from store [s] to store [s'] is a new object:
    neither its address nor the address of its Julia object was in use. *)
Definition newly_allocated (s s' : store) (r : nat) : Prop :=
  exists R hr, wraps s' r R hr /\ fresh_py s r /\ fresh_jl s (Instance.hll R).

(** The passenger rule of 4.4 for a result instance [r]. *)
Definition combined (a b r : Instance.t) : Prop :=
  Instance.tau r = min (Instance.tau a) (Instance.tau b) /\
  Instance.rho r = max (Instance.rho a) (Instance.rho b).

(** [x.decode() if isinstance(x, bytes) else x], when the bytes are text. *)
Definition is_text (x : value) : bool :=
  match x with VBytes b => utf8_valid b | _ => true end.

Definition as_text (x : value) : value :=
  match x with VBytes b => VStr (string_of_list_byte b) | _ => x end.

(** The elements of a dict in the order [from_dict] visits them. *)
Definition flattened (redis_data : list (value * value)) : list value :=
  flat_map (fun item => [as_text (fst item); as_text (snd item)]) redis_data.

(** ** A concrete engine and concrete stores, to run the model *)

Module Demo.

Definition hash (P : Z) (e : value) : option (nat * Z) :=
  match e with
  | VInt z => Some (Z.to_nat (z mod 2 ^ P), (z / 2 ^ P) mod 32)
  | VStr s => Some (Z.to_nat (Z.of_nat (String.length s) mod 2 ^ P), 0)
  | _ => None
  end.

(** The number of registers with a flag set: 0.0 on an empty sketch, as
    4.3 requires of the estimator. *)
Definition occupied (c : list Z) : float :=
  of_uint63 (of_Z (Z.of_nat (length (filter (fun w => negb (w =? 0)) c)))).

Definition engine : Engine := mk_engine hash occupied.

Definition empty : store := mk_store [] [].

(** Two sketches of precision 4 at addresses 0 and 1, the first holding
    the integers 3, 20 and 37, the second 20. *)
Definition two_sketches : store :=
  snd ((a <- HllSet.__init__ 4 0.7%float 0.21%float 42 ;;
        b <- HllSet.__init__ 4 0.5%float 0.3%float 42 ;;
        HllSet.add_batch (E := engine) a [VInt 3; VInt 20; VInt 37] ;;;
        HllSet.add_batch (E := engine) b [VInt 20]) empty).

(** A filled sketch at address 0 and an empty one at address 1. *)
Definition filled_and_empty : store :=
  snd ((a <- HllSet.__init__ 4 0.7%float 0.21%float 42 ;;
        b <- HllSet.__init__ 4 0.7%float 0.21%float 42 ;;
        HllSet.add (E := engine) a (VInt 3)) empty).

(** Sketches of precisions 4 and 5 at addresses 0 and 1. *)
Definition mixed_precisions : store :=
  snd ((a <- HllSet.__init__ 4 0.7%float 0.21%float 42 ;;
        b <- HllSet.__init__ 5 0.7%float 0.21%float 42 ;;
        HllSet.add (E := engine) a (VInt 3)) empty).

(** The instances and Julia objects those stores hold. *)
Definition A0 : Instance.t := Instance.mk 4 0.7%float 0.21%float 42 0.
Definition B0 : Instance.t := Instance.mk 4 0.5%float 0.3%float 42 1.
Definition hA0 : jl_HllSet :=
  mk_jl 4 [0; 0; 0; 1; 2; 4; 0; 0; 0; 0; 0; 0; 0; 0; 0; 0].
Definition hB0 : jl_HllSet :=
  mk_jl 4 [0; 0; 0; 0; 2; 0; 0; 0; 0; 0; 0; 0; 0; 0; 0; 0].

Definition A1 : Instance.t := Instance.mk 4 0.7%float 0.21%float 42 0.
Definition B1 : Instance.t := Instance.mk 4 0.7%float 0.21%float 42 1.
Definition hA1 : jl_HllSet :=
  mk_jl 4 [0; 0; 0; 1; 0; 0; 0; 0; 0; 0; 0; 0; 0; 0; 0; 0].
Definition hB1 : jl_HllSet := Main.blank 4.

Definition B2 : Instance.t := Instance.mk 5 0.7%float 0.21%float 42 1.
Definition hB2 : jl_HllSet := Main.blank 5.

(** A dict with a bytes key, a bytes value and other values, all text; and
    one whose key is the single byte 0xFF, which is not UTF-8. *)
Definition text_dict : list (value * value) :=
  [(VBytes [x6b], VStr "v"); (VInt 1, VBytes [x61; x62])].


End Demo.

(** ** Module start-up: locating HllSets.jl *)

Module Startup.

(** How lines 14-26 end: with the path that line 29 hands to
    [Main.include], or with the EnvironmentError of line 24, whose message
    names the path that was tried. *)
Inductive outcome : Type :=
| Include (path : string)
| EnvironmentError (tried : string).

(** [not x] for the value [x] of [os.getenv]: [None] and the empty string
    are falsy. *)
Definition falsy (x : option string) : bool :=
  match x with
  | None => true
  | Some EmptyString => true
  | Some (String _ _) => false
  end.

(** Lines 14-26.  [env] is the value of HLLSETS_PATH ([None] when it is not
    set), [hllsets_jl] is the path [current_dir / "HllSets" / "src" /
    "HllSets.jl"], and [file_exists] is what [hllsets_jl.exists()] returns. *)
Definition hllsets_path (env : option string) (hllsets_jl : string)
  (file_exists : bool) : outcome :=
  if falsy env then
    if file_exists then Include hllsets_jl else EnvironmentError hllsets_jl
  else Include (default EmptyString env).

End Startup.

(** ** More predicates and stores for the statements *)

(** The precisions of the Julia objects, address by address. *)
Definition precisions (s : store) : list Z := jl_P <$> jl_heap s.

(** Every instance and every Julia object of [s] is in [s'] as it was. *)
Definition preserved (s s' : store) : Prop :=
  py_heap s `prefix_of` py_heap s' /\ jl_heap s `prefix_of` jl_heap s'.

(** Every item of the dict has a key and a value that [decoded] accepts. *)
Definition all_text (redis_data : list (value * value)) : bool :=
  forallb (fun item => is_text (fst item) && is_text (snd item)) redis_data.


Module Scenario.

(** Two sketches of precision 4 holding the same element, with different
    tau, rho and seed. *)
Definition twins : store :=
  snd ((a <- HllSet.__init__ 4 0.9%float 0.1%float 7 ;;
        b <- HllSet.__init__ 4 0.8%float 0.2%float 9 ;;
        HllSet.add (E := Demo.engine) a (VInt 3) ;;;
        HllSet.add (E := Demo.engine) b (VInt 3)) Demo.empty).

Definition A : Instance.t := Instance.mk 4 0.9%float 0.1%float 7 0.
Definition B : Instance.t := Instance.mk 4 0.8%float 0.2%float 9 1.
Definition h : jl_HllSet :=
  mk_jl 4 [0; 0; 0; 1; 0; 0; 0; 0; 0; 0; 0; 0; 0; 0; 0; 0].

(** The twins and, at address 2, an instance that [from_julia] made from
    the Julia object of the second twin with the default P = 10, although
    that object has precision 4. *)
Definition mislabelled : store :=
  snd (HllSet.from_julia 1 HllSet.default_P HllSet.default_tau
         HllSet.default_rho HllSet.default_seed twins).

Definition C : Instance.t :=
  Instance.mk 10 0.7%float 0.21%float 42 1.

(** The twins and, at address 2, an instance that [from_julia] made from
    the Julia object of the second twin with P = 10 and seed 9. *)
Definition relabelled : store :=
  snd (HllSet.from_julia 1 10 0.6%float 0.3%float 9 twins).

Definition D : Instance.t :=
  Instance.mk 10 0.6%float 0.3%float 9 1.

(** A dict whose second entry has a value that is not UTF-8. *)
Definition late_binary_dict : list (value * value) :=
  [(VStr "k", VInt 1); (VInt 2, VBytes [xc0; x80]); (VInt 3, VInt 4)].

End Scenario.

(** * Properties *)

(** ** Running programs *)

Lemma bind_Ok {A B} (m : M A) (k : A -> M B) s a s' :
  m s = (Ok a, s') -> bind m k s = k a s'.
Proof. intros Hm. unfold bind. now rewrite Hm. Qed.

Lemma bind_Raise {A B} (m : M A) (k : A -> M B) s e s' :
  m s = (Raise e, s') -> bind m k s = (Raise e, s').
Proof. intros Hm. unfold bind. now rewrite Hm. Qed.

Lemma py_get_Some s l o :
  py_heap s !! l = Some o -> py_get l s = (Ok o, s).
Proof. intros Hl. unfold py_get. now rewrite Hl. Qed.

Lemma jl_get_Some s r h :
  jl_heap s !! r = Some h -> jl_get r s = (Ok h, s).
Proof. intros Hr. unfold jl_get. now rewrite Hr. Qed.

Lemma py_update_Some s l o f :
  py_heap s !! l = Some o ->
  py_update l f s = (Ok tt, mk_store (<[l := f o]> (py_heap s)) (jl_heap s)).
Proof. intros Hl. unfold py_update. now rewrite Hl. Qed.

Section wrapper_facts.
Context {E : Engine}.

Lemma count_wraps s l o h :
  wraps s l o h -> HllSet.count l s = (Ok (estimate (counts h)), s).
Proof.
  intros [Hl Hh]. unfold HllSet.count.
  rewrite (bind_Ok _ _ _ _ _ (py_get_Some _ _ _ Hl)).
  unfold Main.count.
  now rewrite (bind_Ok _ _ _ _ _ (jl_get_Some _ _ _ Hh)).
Qed.

Lemma metrics_zero s a b B hb :
  wraps s b B hb ->
  is_zero (estimate (counts hb)) = true ->
  HllSet._calculate_bss_metrics a b s = (Ok (BSSMetrics.mk 0%float 0%float), s).
Proof.
  intros Hb Hz. unfold HllSet._calculate_bss_metrics.
  rewrite (bind_Ok _ _ _ _ _ (count_wraps _ _ _ _ Hb)).
  now rewrite Hz.
Qed.

(** C2.  When the estimate of B compares equal to zero, the BSS metrics of
    any A against B are exactly (0.0, 0.0): the call returns, it raises
    nothing, and it leaves the store as it found it, so that no
    intersection and no difference was built (each of them would have
    allocated a Julia object).  The same holds through the public entry
    point [calculate_bss_to]. *)
Theorem bss_metrics_zero_count s a b B hb :
  wraps s b B hb ->
  is_zero (estimate (counts hb)) = true ->
  HllSet._calculate_bss_metrics a b s = (Ok (BSSMetrics.mk 0%float 0%float), s) /\
  HllSet.calculate_bss_to a b s = (Ok (BSSMetrics.mk 0%float 0%float), s).
Proof.
  intros Hb Hz.
  pose proof (metrics_zero s a b B hb Hb Hz) as Hm.
  split; [ exact Hm | exact Hm ].
Qed.

(** C7.  [add_batch] on a list of elements is the same program as one [add]
    call per element, in the order of the list: from every store both
    produce the same outcome (nothing, or the exception of the first
    element that fails) and the same store. *)
Theorem add_batch_sequential self elements s :
  HllSet.add_batch self elements s = add_each self elements s.
Proof.
  revert s. induction elements as [|element rest IH]; intros s.
  - reflexivity.
  - unfold HllSet.add_batch. cbn [for_each add_each].
    fold (HllSet.add self element).
    unfold bind at 1 3.
    destruct (HllSet.add self element s) as [[[]|e] s1].
    + apply IH.
    + reflexivity.
Qed.

(** C9.  Compared with a value that is not an [HllSet] instance, a sketch
    is unequal: [__eq__] returns False, raises nothing, dereferences
    nothing and leaves the store unchanged. *)
Theorem eq_non_sketch self other s :
  is_HllSet other = false ->
  HllSet.__eq__ self other s = (Ok false, s).
Proof.
  intros Hother. destruct other; try reflexivity. discriminate Hother.
Qed.

End wrapper_facts.

(** C6.  For a precision outside the supported range [P_min, P_max] = [4, 18]
    the constructor raises ConfigError; it returns no instance and the store
    is the one before the call, so nothing was built on either side. *)
Theorem init_unsupported_precision P tau rho seed s :
  ~ (Main.P_min <= P <= Main.P_max) ->
  HllSet.__init__ P tau rho seed s = (Raise ConfigError, s).
Proof.
  intros HP. unfold HllSet.__init__, Main.HllSet, Main.create.
  destruct (Z.leb_spec Main.P_min P); destruct (Z.leb_spec P Main.P_max);
    try reflexivity.
  exfalso. apply HP. lia.
Qed.

(** ** The Python helpers on concrete inputs *)

Example utf8_two_byte : utf8_valid [xc3; xa9] = true.
Proof. reflexivity. Qed.

Example utf8_overlong : utf8_valid [xc0; x80] = false.
Proof. reflexivity. Qed.

Example utf8_surrogate : utf8_valid [xed; xa0; x80] = false.
Proof. reflexivity. Qed.

Example utf8_truncated : utf8_valid [xe2; x82] = false.
Proof. reflexivity. Qed.

Example utf8_above_range : utf8_valid [xf4; x90; x80; x80] = false.
Proof. reflexivity. Qed.

Example utf8_four_byte : utf8_valid [xf0; x9f; x98; x80] = true.
Proof. reflexivity. Qed.

Example min_keeps_first_on_nan : min 1%float nan = 1%float.
Proof. reflexivity. Qed.

Example min_takes_smaller : min 0.7%float 0.5%float = 0.5%float.
Proof. reflexivity. Qed.

Example max_takes_larger : max 0.21%float 0.3%float = 0.3%float.
Proof. reflexivity. Qed.

Example zero_is_zero : is_zero (-0)%float = true.
Proof. reflexivity. Qed.

(** ** What each call does to the store *)

Lemma create_supported P :
  Main.P_min <= P <= Main.P_max -> Main.create P = Ok (Main.blank P).
Proof.
  intros [Hlo Hhi]. unfold Main.create.
  apply Z.leb_le in Hlo. apply Z.leb_le in Hhi. now rewrite Hlo, Hhi.
Qed.

Lemma registerwise_same_P f x y :
  jl_P x = jl_P y ->
  Main.registerwise f x y = Ok (mk_jl (jl_P x) (zip_with f (counts x) (counts y))).
Proof.
  intros HP. unfold Main.registerwise.
  apply Z.eqb_eq in HP. now rewrite HP.
Qed.

Lemma registerwise_mismatch f x y :
  jl_P x <> jl_P y -> Main.registerwise f x y = Raise ConfigMismatchError.
Proof.
  intros HP. unfold Main.registerwise.
  apply Z.eqb_neq in HP. now rewrite HP.
Qed.

Lemma diff_v_same_P x y :
  jl_P x = jl_P y ->
  Main.diff_v x y =
    Ok (mk_jl (jl_P x) (zip_with Z.ldiff (counts x) (counts y)),
        mk_jl (jl_P x) (zip_with Z.land (counts x) (counts y)),
        mk_jl (jl_P x) (zip_with (fun a b => Z.ldiff b a) (counts x) (counts y))).
Proof.
  intros HP. unfold Main.diff_v. now rewrite !registerwise_same_P by exact HP.
Qed.

Lemma diff_v_mismatch x y :
  jl_P x <> jl_P y -> Main.diff_v x y = Raise ConfigMismatchError.
Proof.
  intros HP. unfold Main.diff_v. now rewrite !registerwise_mismatch by exact HP.
Qed.

Lemma lookup_snoc_fresh {A} (l : list A) (x : A) :
  (l ++ [x]) !! length l = Some x.
Proof. now apply list_lookup_middle. Qed.

Lemma py_update_app py news jl i o f :
  news !! i = Some o ->
  py_update (length py + i) f (mk_store (py ++ news) jl)
  = (Ok tt, mk_store (py ++ <[i := f o]> news) jl).
Proof.
  intros Hi. unfold py_update. cbn [py_heap jl_heap].
  rewrite lookup_app_r by lia.
  replace (length py + i - length py)%nat with i by lia.
  rewrite Hi. f_equal. f_equal.
  rewrite insert_app_r_alt by lia.
  now replace (length py + i - length py)%nat with i by lia.
Qed.

Lemma py_update_last py jl o f :
  py_update (length py) f (mk_store (py ++ [o]) jl)
  = (Ok tt, mk_store (py ++ [f o]) jl).
Proof.
  replace (length py) with (length py + 0)%nat at 1 by lia.
  now rewrite (py_update_app py [o] jl 0 o f).
Qed.

Lemma init_supported P tau rho seed py jl :
  Main.P_min <= P <= Main.P_max ->
  HllSet.__init__ P tau rho seed (mk_store py jl)
  = (Ok (length py),
     mk_store (py ++ [Instance.mk P tau rho seed (length jl)])
              (jl ++ [Main.blank P])).
Proof.
  intros HP. unfold HllSet.__init__, Main.HllSet.
  now rewrite (create_supported P HP).
Qed.

Lemma from_julia_supported julia_hll P tau rho seed py jl :
  Main.P_min <= P <= Main.P_max ->
  HllSet.from_julia julia_hll P tau rho seed (mk_store py jl)
  = (Ok (length py),
     mk_store (py ++ [Instance.mk P tau rho seed julia_hll])
              (jl ++ [Main.blank P])).
Proof.
  intros HP. unfold HllSet.from_julia.
  rewrite (bind_Ok _ _ _ _ _ (init_supported P tau rho seed py jl HP)).
  now rewrite (bind_Ok _ _ _ _ _ (py_update_last _ _ _ _)).
Qed.

Lemma binary_Ok op a b x y z py jl :
  jl !! a = Some x -> jl !! b = Some y -> op x y = Ok z ->
  Main.binary op a b (mk_store py jl)
  = (Ok (length jl), mk_store py (jl ++ [z])).
Proof.
  intros Ha Hb Hop. unfold Main.binary.
  rewrite (bind_Ok _ _ _ _ _ (jl_get_Some (mk_store py jl) a x Ha)).
  rewrite (bind_Ok _ _ _ _ _ (jl_get_Some (mk_store py jl) b y Hb)).
  now rewrite Hop.
Qed.

Lemma binary_Raise op a b x y e py jl :
  jl !! a = Some x -> jl !! b = Some y -> op x y = Raise e ->
  Main.binary op a b (mk_store py jl) = (Raise e, mk_store py jl).
Proof.
  intros Ha Hb Hop. unfold Main.binary.
  rewrite (bind_Ok _ _ _ _ _ (jl_get_Some (mk_store py jl) a x Ha)).
  rewrite (bind_Ok _ _ _ _ _ (jl_get_Some (mk_store py jl) b y Hb)).
  now rewrite Hop.
Qed.

Lemma diff_Ok a b x y d r n py jl :
  jl !! a = Some x -> jl !! b = Some y -> Main.diff_v x y = Ok (d, r, n) ->
  Main.diff a b (mk_store py jl)
  = (Ok (length jl, S (length jl), S (S (length jl))),
     mk_store py (jl ++ [d; r; n])).
Proof.
  intros Ha Hb Hop. unfold Main.diff.
  rewrite (bind_Ok _ _ _ _ _ (jl_get_Some (mk_store py jl) a x Ha)).
  rewrite (bind_Ok _ _ _ _ _ (jl_get_Some (mk_store py jl) b y Hb)).
  rewrite Hop. unfold lift, bind, ret, jl_alloc. cbn [py_heap jl_heap].
  rewrite !length_app. cbn [length].
  rewrite <- !app_assoc. cbn [app].
  repeat f_equal; lia.
Qed.

(** A Julia operator that returns has allocated its result: a store that
    is the same after a call shows that none was run. *)
Lemma binary_allocates op a b r s s' :
  Main.binary op a b s = (Ok r, s') ->
  length (jl_heap s') = S (length (jl_heap s)).
Proof.
  unfold Main.binary, bind, jl_get, lift, jl_alloc, ret, raise.
  destruct (jl_heap s !! a) as [x|]; [ | discriminate ].
  destruct (jl_heap s !! b) as [y|]; [ | discriminate ].
  destruct (op x y) as [z|e]; [ | discriminate ].
  intros [= <- <-]. cbn [jl_heap]. rewrite length_app. cbn [length]. lia.
Qed.

Lemma diff_allocates a b r s s' :
  Main.diff a b s = (Ok r, s') ->
  length (jl_heap s') = S (S (S (length (jl_heap s)))).
Proof.
  unfold Main.diff, bind, jl_get, lift, jl_alloc, ret, raise.
  destruct (jl_heap s !! a) as [x|]; [ | discriminate ].
  destruct (jl_heap s !! b) as [y|]; [ | discriminate ].
  destruct (Main.diff_v x y) as [[[d r'] n]|e]; [ | discriminate ].
  intros [= <- <-]. cbn [jl_heap]. rewrite !length_app. cbn [length]. lia.
Qed.

Lemma diff_Raise a b x y e py jl :
  jl !! a = Some x -> jl !! b = Some y -> Main.diff_v x y = Raise e ->
  Main.diff a b (mk_store py jl) = (Raise e, mk_store py jl).
Proof.
  intros Ha Hb Hop. unfold Main.diff.
  rewrite (bind_Ok _ _ _ _ _ (jl_get_Some (mk_store py jl) a x Ha)).
  rewrite (bind_Ok _ _ _ _ _ (jl_get_Some (mk_store py jl) b y Hb)).
  now rewrite Hop.
Qed.

Ltac lookup :=
  cbn [py_heap jl_heap];
  first
    [ eassumption
    | apply lookup_snoc_fresh
    | apply lookup_app_l_Some; lookup ].

Ltac call_by tac := erewrite bind_Ok by tac; cbv beta iota zeta.

Ltac get := call_by ltac:(first [ apply py_get_Some; lookup
                                | apply jl_get_Some; lookup ]).

Section operator_effects.
Context {E : Engine}.

Lemma Main_count_Some py jl r h :
  jl !! r = Some h ->
  Main.count r (mk_store py jl) = (Ok (estimate (counts h)), mk_store py jl).
Proof.
  intros Hr. unfold Main.count. now get.
Qed.

Lemma truediv_nonzero a b :
  is_zero b = false -> truediv a b = Ok (PrimFloat.div a b).
Proof. intros Hb. unfold truediv. now rewrite Hb. Qed.

Lemma metrics_nonzero a b A B ha hb py jl :
  py !! a = Some A -> py !! b = Some B ->
  jl !! Instance.hll A = Some ha -> jl !! Instance.hll B = Some hb ->
  jl_P ha = jl_P hb ->
  is_zero (estimate (counts hb)) = false ->
  HllSet._calculate_bss_metrics a b (mk_store py jl)
  = (Ok (BSSMetrics.mk
           (PrimFloat.div (estimate (zip_with Z.land (counts ha) (counts hb)))
                          (estimate (counts hb)))
           (PrimFloat.div (estimate (zip_with Z.ldiff (counts ha) (counts hb)))
                          (estimate (counts hb)))),
     mk_store py
       (jl ++ [mk_jl (jl_P ha) (zip_with Z.land (counts ha) (counts hb))]
           ++ [mk_jl (jl_P ha) (zip_with Z.ldiff (counts ha) (counts hb));
               mk_jl (jl_P ha) (zip_with Z.land (counts ha) (counts hb));
               mk_jl (jl_P ha)
                 (zip_with (fun u v => Z.ldiff v u) (counts ha) (counts hb))])).
Proof.
  intros Ha Hb Hha Hhb HP Hnz.
  unfold HllSet._calculate_bss_metrics.
  call_by ltac:(apply (count_wraps _ b B hb); split; lookup).
  rewrite Hnz. do 2 get.
  unfold Main.intersect.
  call_by ltac:(eapply binary_Ok;
                [ lookup | lookup | apply registerwise_same_P; exact HP ]).
  call_by ltac:(apply Main_count_Some; lookup).
  do 2 get.
  call_by ltac:(eapply diff_Ok;
                [ lookup | lookup | apply diff_v_same_P; exact HP ]).
  call_by ltac:(apply Main_count_Some; apply list_lookup_middle; reflexivity).
  cbn [counts].
  rewrite !truediv_nonzero by exact Hnz. cbn [lift].
  unfold bind, ret. now rewrite <- app_assoc.
Qed.

End operator_effects.

Lemma py_update_at py news jl l i o f :
  l = (length py + i)%nat -> news !! i = Some o ->
  py_update l f (mk_store (py ++ news) jl)
  = (Ok tt, mk_store (py ++ <[i := f o]> news) jl).
Proof. intros ->. apply py_update_app. Qed.

Lemma stamp_effect py news jl l i o t r :
  l = (length py + i)%nat -> news !! i = Some o ->
  (py_update l (set_tau t) ;;; py_update l (set_rho r)) (mk_store (py ++ news) jl)
  = (Ok tt, mk_store (py ++ <[i := set_rho r (set_tau t o)]> news) jl).
Proof.
  intros -> Hi.
  rewrite (bind_Ok _ _ _ _ _ (py_update_app py news jl i o _ Hi)).
  assert (<[i := set_tau t o]> news !! i = Some (set_tau t o)) as Hi'.
  { apply list_lookup_insert_eq. eapply lookup_lt_Some, Hi. }
  rewrite (py_update_app py _ jl i _ _ Hi').
  now rewrite list_insert_insert_eq.
Qed.

Ltac construct HP :=
  call_by ltac:(apply from_julia_supported; exact HP).

Ltac assign := call_by ltac:(apply py_update_last).

Lemma union_effect a b A B ha hb py jl :
  py !! a = Some A -> py !! b = Some B ->
  jl !! Instance.hll A = Some ha -> jl !! Instance.hll B = Some hb ->
  jl_P ha = jl_P hb ->
  Main.P_min <= Instance.P A <= Main.P_max ->
  HllSet.union a b (mk_store py jl)
  = (Ok (length py),
     mk_store
       (py ++ [Instance.mk (Instance.P A)
                 (min (Instance.tau A) (Instance.tau B))
                 (max (Instance.rho A) (Instance.rho B))
                 HllSet.default_seed (length jl)])
       (jl ++ [mk_jl (jl_P ha) (zip_with Z.lor (counts ha) (counts hb));
               Main.blank (Instance.P A)])).
Proof.
  intros Ha Hb Hha Hhb HP HA.
  unfold HllSet.union. do 2 get.
  unfold Main.union.
  call_by ltac:(eapply binary_Ok;
                [ lookup | lookup | apply registerwise_same_P; exact HP ]).
  get. construct HA. do 2 get. assign. do 2 get. assign.
  unfold ret. now rewrite <- app_assoc.
Qed.

Lemma intersection_effect a b A B ha hb py jl :
  py !! a = Some A -> py !! b = Some B ->
  jl !! Instance.hll A = Some ha -> jl !! Instance.hll B = Some hb ->
  jl_P ha = jl_P hb ->
  Main.P_min <= Instance.P A <= Main.P_max ->
  HllSet.intersection a b (mk_store py jl)
  = (Ok (length py),
     mk_store
       (py ++ [Instance.mk (Instance.P A)
                 (min (Instance.tau A) (Instance.tau B))
                 (max (Instance.rho A) (Instance.rho B))
                 HllSet.default_seed (length jl)])
       (jl ++ [mk_jl (jl_P ha) (zip_with Z.land (counts ha) (counts hb));
               Main.blank (Instance.P A)])).
Proof.
  intros Ha Hb Hha Hhb HP HA.
  unfold HllSet.intersection. do 2 get.
  unfold Main.intersect.
  call_by ltac:(eapply binary_Ok;
                [ lookup | lookup | apply registerwise_same_P; exact HP ]).
  get. construct HA. do 2 get. assign. do 2 get. assign.
  unfold ret. now rewrite <- app_assoc.
Qed.

Lemma difference_effect a b A B ha hb py jl :
  py !! a = Some A -> py !! b = Some B ->
  jl !! Instance.hll A = Some ha -> jl !! Instance.hll B = Some hb ->
  jl_P ha = jl_P hb ->
  Main.P_min <= Instance.P A <= Main.P_max ->
  let stamped r :=
    Instance.mk (Instance.P A)
      (min (Instance.tau A) (Instance.tau B))
      (max (Instance.rho A) (Instance.rho B))
      HllSet.default_seed r in
  HllSet.difference a b (mk_store py jl)
  = (Ok (length py, S (length py), S (S (length py))),
     mk_store
       (py ++ [stamped (length jl); stamped (S (length jl));
               stamped (S (S (length jl)))])
       (jl ++ [mk_jl (jl_P ha) (zip_with Z.ldiff (counts ha) (counts hb));
               mk_jl (jl_P ha) (zip_with Z.land (counts ha) (counts hb));
               mk_jl (jl_P ha)
                 (zip_with (fun u v => Z.ldiff v u) (counts ha) (counts hb));
               Main.blank (Instance.P A); Main.blank (Instance.P A);
               Main.blank (Instance.P A)])).
Proof.
  intros Ha Hb Hha Hhb HP HA stamped.
  unfold HllSet.difference. do 2 get.
  call_by ltac:(eapply diff_Ok;
                [ lookup | lookup | apply diff_v_same_P; exact HP ]).
  get. construct HA. get. construct HA. get. construct HA. do 4 get.
  rewrite !length_app. cbn [length]. rewrite <- !app_assoc. cbn [app].
  call_by ltac:(
    cbn [for_each];
    call_by ltac:(apply (stamp_effect _ _ _ _ 0%nat); [lia | reflexivity]);
    call_by ltac:(apply (stamp_effect _ _ _ _ 1%nat); [lia | reflexivity]);
    call_by ltac:(apply (stamp_effect _ _ _ _ 2%nat); [lia | reflexivity]);
    reflexivity).
  unfold bind, ret. cbn. unfold stamped.
  repeat f_equal; lia.
Qed.

Section operator_effects_2.
Context {E : Engine}.

Lemma metrics_effect a b A B ha hb py jl :
  py !! a = Some A -> py !! b = Some B ->
  jl !! Instance.hll A = Some ha -> jl !! Instance.hll B = Some hb ->
  jl_P ha = jl_P hb ->
  exists extra,
    HllSet._calculate_bss_metrics a b (mk_store py jl)
    = (Ok (coverage_and_exclusion ha hb), mk_store py (jl ++ extra)).
Proof.
  intros Ha Hb Hha Hhb HP. unfold coverage_and_exclusion.
  destruct (is_zero (estimate (counts hb))) eqn:Hz.
  - exists []. rewrite app_nil_r.
    apply (metrics_zero (mk_store py jl) a b B hb); [ now split | exact Hz ].
  - eexists. now apply (metrics_nonzero a b A B ha hb).
Qed.

Lemma complement_effect a b A B ha hb py jl :
  py !! a = Some A -> py !! b = Some B ->
  jl !! Instance.hll A = Some ha -> jl !! Instance.hll B = Some hb ->
  jl_P ha = jl_P hb ->
  Main.P_min <= Instance.P A <= Main.P_max ->
  exists extra,
    HllSet.complement a b (mk_store py jl)
    = (Ok (length py),
       mk_store
         (py ++ [Instance.mk (Instance.P A)
                   (BSSMetrics.tau (coverage_and_exclusion ha hb))
                   (BSSMetrics.rho (coverage_and_exclusion ha hb))
                   HllSet.default_seed (length jl)])
         (jl ++ mk_jl (jl_P ha) (zip_with Z.ldiff (counts ha) (counts hb))
             :: extra)).
Proof.
  intros Ha Hb Hha Hhb HP HA.
  unfold HllSet.complement. do 2 get.
  unfold Main.set_comp.
  call_by ltac:(eapply binary_Ok;
                [ lookup | lookup | apply registerwise_same_P; exact HP ]).
  get. construct HA.
  match goal with
  | |- context [bind (HllSet._calculate_bss_metrics a b) _ (mk_store ?p ?j)] =>
      assert (p !! a = Some A) as Ha' by lookup;
      assert (p !! b = Some B) as Hb' by lookup;
      assert (j !! Instance.hll A = Some ha) as Hha' by lookup;
      assert (j !! Instance.hll B = Some hb) as Hhb' by lookup;
      destruct (metrics_effect a b A B ha hb p j Ha' Hb' Hha' Hhb' HP)
        as [extra Hm]
  end.
  call_by ltac:(exact Hm).
  do 2 assign.
  exists (Main.blank (Instance.P A) :: extra).
  unfold ret. cbn [set_tau set_rho Instance.P Instance.tau Instance.rho
                   Instance.seed Instance.hll].
  now rewrite <- !app_assoc.
Qed.

End operator_effects_2.

(** ** Old and new addresses *)

Lemma unchanged_app py jl news newj l o h :
  wraps (mk_store py jl) l o h ->
  unchanged (mk_store (py ++ news) (jl ++ newj)) l o h.
Proof.
  intros [Hl Hh]. split; cbn [py_heap jl_heap] in *;
    now apply lookup_app_l_Some.
Qed.

Lemma lookup_app_new {A} (l news : list A) (i : nat) (x : A) :
  news !! i = Some x -> (l ++ news) !! (length l + i)%nat = Some x.
Proof.
  intros Hi. rewrite lookup_app_r by lia.
  now replace (length l + i - length l)%nat with i by lia.
Qed.

Lemma lookup_app_at {A} (l news : list A) (k i : nat) (x : A) :
  k = (length l + i)%nat -> news !! i = Some x -> (l ++ news) !! k = Some x.
Proof. intros ->. apply lookup_app_new. Qed.

Lemma newly_allocated_app py jl news newj i j R hr :
  news !! i = Some R -> Instance.hll R = (length jl + j)%nat ->
  newj !! j = Some hr ->
  newly_allocated (mk_store py jl) (mk_store (py ++ news) (jl ++ newj))
                  (length py + i).
Proof.
  intros Hi Hhll Hj. exists R, hr. repeat split; cbn [py_heap jl_heap].
  - now apply lookup_app_new.
  - rewrite Hhll. now apply lookup_app_new.
  - unfold fresh_py. cbn [py_heap]. apply lookup_ge_None_2. lia.
  - unfold fresh_jl. cbn [jl_heap]. apply lookup_ge_None_2. lia.
Qed.

Lemma newly_allocated_at py jl news newj r i j R hr :
  r = (length py + i)%nat ->
  news !! i = Some R -> Instance.hll R = (length jl + j)%nat ->
  newj !! j = Some hr ->
  newly_allocated (mk_store py jl) (mk_store (py ++ news) (jl ++ newj)) r.
Proof. intros ->. apply newly_allocated_app. Qed.

Lemma sketches_same_P s a b A B ha hb :
  sketch s a A ha -> sketch s b B hb ->
  Instance.P A = Instance.P B -> jl_P ha = jl_P hb.
Proof. intros (_ & HA & _) (_ & HB & _) HP. congruence. Qed.

Section claims.
Context {E : Engine}.

(** C1.  For sketches A and B of one precision whose estimate of B does not
    compare equal to zero, the BSS metrics are returned (nothing is raised)
    and are the plain IEEE quotients
    tau = estimate(intersection(A, B)) / estimate(B) and
    rho = estimate(difference(A, B).deleted) / estimate(B):
    neither ratio is clamped or otherwise adjusted.  The same holds through
    the public entry point [calculate_bss_to]. *)
Theorem bss_metrics_ratios s a b A B ha hb :
  wraps s a A ha -> wraps s b B hb -> jl_P ha = jl_P hb ->
  is_zero (estimate (counts hb)) = false ->
  exists i d r n s',
    Main.intersect_v ha hb = Ok i /\
    Main.diff_v ha hb = Ok (d, r, n) /\
    HllSet._calculate_bss_metrics a b s
    = (Ok (BSSMetrics.mk
             (PrimFloat.div (estimate (counts i)) (estimate (counts hb)))
             (PrimFloat.div (estimate (counts d)) (estimate (counts hb)))),
       s') /\
    HllSet.calculate_bss_to a b s
    = (Ok (BSSMetrics.mk
             (PrimFloat.div (estimate (counts i)) (estimate (counts hb)))
             (PrimFloat.div (estimate (counts d)) (estimate (counts hb)))),
       s').
Proof.
  destruct s as [py jl]. intros [Ha Hha] [Hb Hhb] HP Hnz.
  cbn [py_heap jl_heap] in *.
  pose proof (metrics_nonzero a b A B ha hb py jl Ha Hb Hha Hhb HP Hnz) as Hm.
  do 5 eexists. split; [ apply registerwise_same_P, HP | ].
  split; [ apply diff_v_same_P, HP | ].
  cbn [counts]. split; exact Hm.
Qed.

(** C3, as amended.  For sketches A and B of one precision, the result of
    union, of intersection, and each of the three results of difference
    carries tau = min(A.tau, B.tau) and rho = max(A.rho, B.rho).
    ([complement] is not among them: its result carries the BSS metrics of
    A against B.) *)
Theorem passenger_rule s a b A B ha hb :
  sketch s a A ha -> sketch s b B hb ->
  Instance.P A = Instance.P B ->
  (exists u s' U,
      HllSet.union a b s = (Ok u, s') /\
      py_heap s' !! u = Some U /\ combined A B U) /\
  (exists i s' I,
      HllSet.intersection a b s = (Ok i, s') /\
      py_heap s' !! i = Some I /\ combined A B I) /\
  (exists d r n s' D R N,
      HllSet.difference a b s = (Ok (d, r, n), s') /\
      py_heap s' !! d = Some D /\ py_heap s' !! r = Some R /\
      py_heap s' !! n = Some N /\
      combined A B D /\ combined A B R /\ combined A B N).
Proof.
  intros HsA HsB HPAB.
  pose proof (sketches_same_P s a b A B ha hb HsA HsB HPAB) as HP.
  destruct s as [py jl].
  destruct HsA as ([Ha Hha] & _ & HA), HsB as ([Hb Hhb] & _ & _).
  cbn [py_heap jl_heap] in *.
  split; [ | split ].
  - do 3 eexists. rewrite (union_effect a b A B ha hb py jl) by assumption.
    split; [ reflexivity | ]. cbn [py_heap].
    split; [ apply lookup_snoc_fresh | now split ].
  - do 3 eexists.
    rewrite (intersection_effect a b A B ha hb py jl) by assumption.
    split; [ reflexivity | ]. cbn [py_heap].
    split; [ apply lookup_snoc_fresh | now split ].
  - do 7 eexists.
    rewrite (difference_effect a b A B ha hb py jl) by assumption.
    split; [ reflexivity | ]. cbn [py_heap].
    split; [ apply (lookup_app_at py _ _ 0); [ lia | reflexivity ] | ].
    split; [ apply (lookup_app_at py _ _ 1); [ lia | reflexivity ] | ].
    split; [ apply (lookup_app_at py _ _ 2); [ lia | reflexivity ] | ].
    repeat split.
Qed.

(** C4.  For sketches A and B of one precision, complement(A, B) returns a
    new sketch whose tau and rho are the BSS metrics of A against B, the
    ones [_calculate_bss_metrics] returns for the two operands: the
    quotients of C1, or (0.0, 0.0) when the estimate of B compares equal to
    zero.  They are computed from the registers of A and B, not from those
    of the result. *)
Theorem complement_carries_bss_metrics s a b A B ha hb :
  sketch s a A ha -> sketch s b B hb ->
  Instance.P A = Instance.P B ->
  exists c s' C m s'',
    HllSet.complement a b s = (Ok c, s') /\
    newly_allocated s s' c /\
    py_heap s' !! c = Some C /\
    HllSet._calculate_bss_metrics a b s = (Ok m, s'') /\
    m = coverage_and_exclusion ha hb /\
    Instance.tau C = BSSMetrics.tau m /\
    Instance.rho C = BSSMetrics.rho m.
Proof.
  intros HsA HsB HPAB.
  pose proof (sketches_same_P s a b A B ha hb HsA HsB HPAB) as HP.
  destruct s as [py jl].
  destruct HsA as ([Ha Hha] & _ & HA), HsB as ([Hb Hhb] & _ & _).
  cbn [py_heap jl_heap] in *.
  destruct (complement_effect a b A B ha hb py jl Ha Hb Hha Hhb HP HA)
    as [extra Hc].
  destruct (metrics_effect a b A B ha hb py jl Ha Hb Hha Hhb HP)
    as [extra' Hm].
  do 5 eexists. rewrite Hc, Hm.
  split; [ reflexivity | ].
  split.
  { eapply (newly_allocated_at py jl _ _ _ 0 0);
      [ lia | reflexivity | cbn [Instance.hll]; lia | reflexivity ]. }
  cbn [py_heap].
  split; [ apply lookup_snoc_fresh | ].
  split; [ reflexivity | ].
  repeat split.
Qed.

End claims.

Ltac fails_on_mismatch lem HP :=
  erewrite bind_Raise
    by (eapply lem; [ lookup | lookup | ]; first
          [ apply registerwise_mismatch; exact HP
          | apply diff_v_mismatch; exact HP ]);
  reflexivity.

Section claims_about_operands.
Context {E : Engine}.

(** C5, as amended.  When the Julia objects that two instances wrap have
    different precisions, each binary operator (union, intersection,
    difference, complement and the equality comparison) raises
    ConfigMismatchError, and the store after the failed call is the store
    before it: neither operand, nor anything else, was touched, and nothing
    was allocated.  The P attributes of the instances play no part: what
    is compared is the precision of the objects. *)
Theorem precision_mismatch s a b A B ha hb :
  wraps s a A ha -> wraps s b B hb ->
  jl_P ha <> jl_P hb ->
  HllSet.union a b s = (Raise ConfigMismatchError, s) /\
  HllSet.intersection a b s = (Raise ConfigMismatchError, s) /\
  HllSet.difference a b s = (Raise ConfigMismatchError, s) /\
  HllSet.complement a b s = (Raise ConfigMismatchError, s) /\
  HllSet.__eq__ a (VObj b) s = (Raise ConfigMismatchError, s).
Proof.
  destruct s as [py jl]. intros [Ha Hha] [Hb Hhb] HP.
  cbn [py_heap jl_heap] in *.
  repeat split.
  - unfold HllSet.union, Main.union. do 2 get.
    fails_on_mismatch binary_Raise HP.
  - unfold HllSet.intersection, Main.intersect. do 2 get.
    fails_on_mismatch binary_Raise HP.
  - unfold HllSet.difference. do 2 get.
    fails_on_mismatch diff_Raise HP.
  - unfold HllSet.complement, Main.set_comp. do 2 get.
    fails_on_mismatch binary_Raise HP.
  - unfold HllSet.__eq__, Main.isequal. do 4 get.
    unfold Main.isequal_v. apply Z.eqb_neq in HP. now rewrite HP.
Qed.

(** C8.  For sketches A and B of one precision, union, intersection,
    difference and complement return objects that did not exist before the
    call (new instances wrapping new Julia objects; the three results of
    difference are three different ones), and after the call each operand
    is the instance it was (same P, tau, rho, seed, same Julia object) over
    the register contents it had. *)
Theorem operators_leave_operands s a b A B ha hb :
  sketch s a A ha -> sketch s b B hb ->
  Instance.P A = Instance.P B ->
  (exists u s',
      HllSet.union a b s = (Ok u, s') /\ newly_allocated s s' u /\
      unchanged s' a A ha /\ unchanged s' b B hb) /\
  (exists i s',
      HllSet.intersection a b s = (Ok i, s') /\ newly_allocated s s' i /\
      unchanged s' a A ha /\ unchanged s' b B hb) /\
  (exists d r n s',
      HllSet.difference a b s = (Ok (d, r, n), s') /\
      newly_allocated s s' d /\ newly_allocated s s' r /\
      newly_allocated s s' n /\ NoDup [d; r; n] /\
      unchanged s' a A ha /\ unchanged s' b B hb) /\
  (exists c s',
      HllSet.complement a b s = (Ok c, s') /\ newly_allocated s s' c /\
      unchanged s' a A ha /\ unchanged s' b B hb).
Proof.
  intros HsA HsB HPAB.
  pose proof (sketches_same_P s a b A B ha hb HsA HsB HPAB) as HP.
  destruct s as [py jl].
  destruct HsA as (HwA & _ & HA), HsB as (HwB & _ & _).
  pose proof HwA as [Ha Hha]. pose proof HwB as [Hb Hhb].
  cbn [py_heap jl_heap] in *.
  split; [ | split; [ | split ] ].
  - do 2 eexists. rewrite (union_effect a b A B ha hb py jl) by assumption.
    split; [ reflexivity | ].
    split; [ | split; now apply unchanged_app ].
    eapply (newly_allocated_at py jl _ _ _ 0 0);
      [ lia | reflexivity | cbn [Instance.hll]; lia | reflexivity ].
  - do 2 eexists.
    rewrite (intersection_effect a b A B ha hb py jl) by assumption.
    split; [ reflexivity | ].
    split; [ | split; now apply unchanged_app ].
    eapply (newly_allocated_at py jl _ _ _ 0 0);
      [ lia | reflexivity | cbn [Instance.hll]; lia | reflexivity ].
  - do 4 eexists.
    rewrite (difference_effect a b A B ha hb py jl) by assumption.
    split; [ reflexivity | ].
    split; [ eapply (newly_allocated_at py jl _ _ _ 0 0);
             [ lia | reflexivity | cbn [Instance.hll]; lia | reflexivity ] | ].
    split; [ eapply (newly_allocated_at py jl _ _ _ 1 1);
             [ lia | reflexivity | cbn [Instance.hll]; lia | reflexivity ] | ].
    split; [ eapply (newly_allocated_at py jl _ _ _ 2 2);
             [ lia | reflexivity | cbn [Instance.hll]; lia | reflexivity ] | ].
    split; [ | split; now apply unchanged_app ].
    repeat constructor; rewrite ?elem_of_cons, ?elem_of_nil; lia.
  - destruct (complement_effect a b A B ha hb py jl Ha Hb Hha Hhb HP HA)
      as [extra Hc].
    do 2 eexists. rewrite Hc.
    split; [ reflexivity | ].
    split; [ | split; now apply unchanged_app ].
    eapply (newly_allocated_at py jl _ _ _ 0 0);
      [ lia | reflexivity | cbn [Instance.hll]; lia | reflexivity ].
Qed.

End claims_about_operands.

(** ** Reading a dict *)

Lemma bind_assoc {A B C} (m : M A) (f : A -> M B) (g : B -> M C) s :
  bind (bind m f) g s = bind m (fun x => bind (f x) g) s.
Proof. unfold bind. destruct (m s) as [[x|e] s1]; reflexivity. Qed.

Lemma bind_ext {A B} (m : M A) (k1 k2 : A -> M B) s :
  (forall a s', k1 a s' = k2 a s') -> bind m k1 s = bind m k2 s.
Proof.
  intros Hk. unfold bind. destruct (m s) as [[x|e] s1]; [ apply Hk | reflexivity ].
Qed.

Lemma bind_same_first {A B} (m1 m2 : M A) (k : A -> M B) s :
  m1 s = m2 s -> bind m1 k s = bind m2 k s.
Proof. intros Hm. unfold bind. now rewrite Hm. Qed.


Section reading_a_dict.
Context {E : Engine}.

Lemma decoded_text x s :
  is_text x = true -> HllSet.decoded x s = (Ok (as_text x), s).
Proof.
  destruct x; try reflexivity. cbn [is_text as_text HllSet.decoded].
  intros Hb. unfold decode. now rewrite Hb.
Qed.

Lemma from_dict_loop hll redis_data s :
  forallb (fun item => is_text (fst item) && is_text (snd item)) redis_data
  = true ->
  for_each (fun item : value * value =>
              let (key, value) := item in
              k <- HllSet.decoded key ;; HllSet.add hll k ;;;
              v <- HllSet.decoded value ;; HllSet.add hll v)
           redis_data s
  = add_each hll (flattened redis_data) s.
Proof.
  revert s. induction redis_data as [|[key val] rest IH]; intros s Htext.
  - reflexivity.
  - cbn [forallb fst snd] in Htext.
    apply andb_prop in Htext as [Hitem Hrest].
    apply andb_prop in Hitem as [Hkey Hval].
    unfold flattened. cbn [for_each flat_map app fst snd add_each].
    fold (flattened rest).
    rewrite bind_assoc.
    rewrite (bind_Ok _ _ _ _ _ (decoded_text key s Hkey)).
    rewrite bind_assoc.
    apply bind_ext. intros _ s1.
    rewrite bind_assoc.
    rewrite (bind_Ok _ _ _ _ _ (decoded_text val s1 Hval)).
    apply bind_ext. intros _ s2.
    now apply IH.
Qed.

End reading_a_dict.

(** * The claims on concrete stores *)

Lemma demo_two_sketches :
  sketch Demo.two_sketches 0 Demo.A0 Demo.hA0 /\
  sketch Demo.two_sketches 1 Demo.B0 Demo.hB0.
Proof.
  unfold sketch, wraps, Main.P_min, Main.P_max.
  repeat split; solve [ vm_compute; reflexivity | vm_compute; discriminate ].
Defined.

Lemma demo_filled_and_empty :
  sketch Demo.filled_and_empty 0 Demo.A1 Demo.hA1 /\
  sketch Demo.filled_and_empty 1 Demo.B1 Demo.hB1.
Proof.
  unfold sketch, wraps, Main.P_min, Main.P_max.
  repeat split; solve [ vm_compute; reflexivity | vm_compute; discriminate ].
Defined.

Lemma demo_mixed_precisions :
  sketch Demo.mixed_precisions 0 Demo.A1 Demo.hA1 /\
  sketch Demo.mixed_precisions 1 Demo.B2 Demo.hB2.
Proof.
  unfold sketch, wraps, Main.P_min, Main.P_max.
  repeat split; solve [ vm_compute; reflexivity | vm_compute; discriminate ].
Defined.

(** C1 on the two demo sketches: tau = 1/1 and rho = 2/1, the latter above
    1 and returned as it is. *)
Lemma bss_metrics_ratios_witness :
  exists s',
    HllSet.calculate_bss_to (E := Demo.engine) 0 1 Demo.two_sketches
    = (Ok (BSSMetrics.mk 1%float 2%float), s').
Proof.
  destruct (bss_metrics_ratios (E := Demo.engine) Demo.two_sketches 0 1
              Demo.A0 Demo.B0 Demo.hA0 Demo.hB0
              (proj1 (proj1 demo_two_sketches))
              (proj1 (proj2 demo_two_sketches))
              eq_refl eq_refl)
    as (i & d & r & n & s' & Hi & Hd & _ & Hm).
  exists s'. rewrite Hm.
  vm_compute in Hi. injection Hi as <-.
  vm_compute in Hd. injection Hd as <- _ _.
  reflexivity.
Defined.

(** C2 on a filled sketch against an empty one. *)
Lemma bss_metrics_zero_count_witness :
  HllSet._calculate_bss_metrics (E := Demo.engine) 0 1 Demo.filled_and_empty
  = (Ok (BSSMetrics.mk 0%float 0%float), Demo.filled_and_empty).
Proof.
  apply (bss_metrics_zero_count (E := Demo.engine) Demo.filled_and_empty 0 1
           Demo.B1 Demo.hB1).
  - exact (proj1 (proj2 demo_filled_and_empty)).
  - vm_compute. reflexivity.
Defined.

(** C3 on the two demo sketches: min(0.7, 0.5) and max(0.21, 0.3). *)
Lemma passenger_rule_witness :
  exists u s' U,
    HllSet.union 0 1 Demo.two_sketches = (Ok u, s') /\
    py_heap s' !! u = Some U /\
    Instance.tau U = 0.5%float /\ Instance.rho U = 0.3%float.
Proof.
  destruct (passenger_rule Demo.two_sketches 0 1 Demo.A0 Demo.B0
              Demo.hA0 Demo.hB0
              (proj1 demo_two_sketches) (proj2 demo_two_sketches) eq_refl)
    as ((u & s' & U & Hu & HU & Htau & Hrho) & _).
  exists u, s', U. repeat split; assumption.
Defined.

(** C3 as stated fails on [complement]: on a filled sketch against an empty
    one, both with tau = 0.7 and rho = 0.21, the result carries the BSS
    metrics (0.0, 0.0) and not (min, max) = (0.7, 0.21). *)
Lemma complement_not_combined :
  exists c s' C,
    sketch Demo.filled_and_empty 0 Demo.A1 Demo.hA1 /\
    sketch Demo.filled_and_empty 1 Demo.B1 Demo.hB1 /\
    HllSet.complement (E := Demo.engine) 0 1 Demo.filled_and_empty
    = (Ok c, s') /\
    py_heap s' !! c = Some C /\
    Instance.tau C = 0%float /\ Instance.rho C = 0%float /\
    PrimFloat.eqb (Instance.tau C)
      (min (Instance.tau Demo.A1) (Instance.tau Demo.B1)) = false /\
    PrimFloat.eqb (Instance.rho C)
      (max (Instance.rho Demo.A1) (Instance.rho Demo.B1)) = false /\
    ~ combined Demo.A1 Demo.B1 C.
Proof.
  do 3 eexists.
  split; [ exact (proj1 demo_filled_and_empty) | ].
  split; [ exact (proj2 demo_filled_and_empty) | ].
  split; [ vm_compute; reflexivity | ].
  split; [ vm_compute; reflexivity | ].
  repeat split; try (vm_compute; reflexivity).
  intros [Htau _].
  apply (f_equal (fun x => PrimFloat.eqb x 0%float)) in Htau.
  vm_compute in Htau. discriminate Htau.
Qed.

(** C4 on the two demo sketches: the result of complement carries the
    metrics (1.0, 2.0) of the two operands. *)
Lemma complement_carries_bss_metrics_witness :
  exists c s' C,
    HllSet.complement (E := Demo.engine) 0 1 Demo.two_sketches = (Ok c, s') /\
    py_heap s' !! c = Some C /\
    Instance.tau C = 1%float /\ Instance.rho C = 2%float.
Proof.
  destruct (complement_carries_bss_metrics (E := Demo.engine)
              Demo.two_sketches 0 1 Demo.A0 Demo.B0 Demo.hA0 Demo.hB0
              (proj1 demo_two_sketches) (proj2 demo_two_sketches) eq_refl)
    as (c & s' & C & m & s'' & Hc & _ & HC & _ & -> & Htau & Hrho).
  exists c, s', C. repeat split; assumption.
Defined.

(** C5 on sketches of precisions 4 and 5. *)
Lemma precision_mismatch_witness :
  HllSet.union 0 1 Demo.mixed_precisions
  = (Raise ConfigMismatchError, Demo.mixed_precisions) /\
  HllSet.intersection 0 1 Demo.mixed_precisions
  = (Raise ConfigMismatchError, Demo.mixed_precisions) /\
  HllSet.difference 0 1 Demo.mixed_precisions
  = (Raise ConfigMismatchError, Demo.mixed_precisions) /\
  HllSet.complement (E := Demo.engine) 0 1 Demo.mixed_precisions
  = (Raise ConfigMismatchError, Demo.mixed_precisions) /\
  HllSet.__eq__ 0 (VObj 1) Demo.mixed_precisions
  = (Raise ConfigMismatchError, Demo.mixed_precisions).
Proof.
  apply (precision_mismatch (E := Demo.engine) Demo.mixed_precisions 0 1
           Demo.A1 Demo.B2 Demo.hA1 Demo.hB2).
  - exact (proj1 (proj1 demo_mixed_precisions)).
  - exact (proj1 (proj2 demo_mixed_precisions)).
  - vm_compute. discriminate.
Defined.

(** C5 as stated fails on instances whose P attributes differ while their
    Julia objects have one precision: the twin at address 0 has P = 4, the
    instance at address 2 was made by [from_julia] with the default P = 10
    from an object of precision 4, and every operator returns. *)
Lemma mislabelled_operands_combine :
  wraps Scenario.mislabelled 0 Scenario.A Scenario.h /\
  wraps Scenario.mislabelled 2 Scenario.C Scenario.h /\
  Instance.P Scenario.A <> Instance.P Scenario.C /\
  (exists u s', HllSet.union 0 2 Scenario.mislabelled = (Ok u, s')) /\
  (exists i s', HllSet.intersection 0 2 Scenario.mislabelled = (Ok i, s')) /\
  (exists t s', HllSet.difference 0 2 Scenario.mislabelled = (Ok t, s')) /\
  (exists c s',
      HllSet.complement (E := Demo.engine) 0 2 Scenario.mislabelled
      = (Ok c, s')) /\
  HllSet.__eq__ 0 (VObj 2) Scenario.mislabelled
  = (Ok true, Scenario.mislabelled).
Proof.
  split; [ split; vm_compute; reflexivity | ].
  split; [ split; vm_compute; reflexivity | ].
  split; [ discriminate | ].
  split; [ do 2 eexists; vm_compute; reflexivity | ].
  split; [ do 2 eexists; vm_compute; reflexivity | ].
  split; [ do 2 eexists; vm_compute; reflexivity | ].
  split; [ do 2 eexists; vm_compute; reflexivity | ].
  vm_compute. reflexivity.
Qed.

(** C6 at P = 3 and at P = 19. *)
Lemma init_unsupported_precision_witness :
  HllSet.__init__ 3 0.7%float 0.21%float 42 Demo.empty
  = (Raise ConfigError, Demo.empty) /\
  HllSet.__init__ 19 0.7%float 0.21%float 42 Demo.two_sketches
  = (Raise ConfigError, Demo.two_sketches).
Proof.
  split; apply init_unsupported_precision;
    unfold Main.P_min, Main.P_max; lia.
Defined.

(** C8 on the two demo sketches, for union. *)
Lemma operators_leave_operands_witness :
  exists u s',
    HllSet.union 0 1 Demo.two_sketches = (Ok u, s') /\
    newly_allocated Demo.two_sketches s' u /\
    unchanged s' 0 Demo.A0 Demo.hA0 /\ unchanged s' 1 Demo.B0 Demo.hB0.
Proof.
  exact (proj1 (operators_leave_operands (E := Demo.engine)
                  Demo.two_sketches 0 1 Demo.A0 Demo.B0 Demo.hA0 Demo.hB0
                  (proj1 demo_two_sketches) (proj2 demo_two_sketches)
                  eq_refl)).
Defined.

(** C9 on an integer, a string and None. *)
Lemma eq_non_sketch_witness :
  HllSet.__eq__ 0 (VInt 7) Demo.two_sketches = (Ok false, Demo.two_sketches) /\
  HllSet.__eq__ 0 (VStr "HllSet") Demo.two_sketches
  = (Ok false, Demo.two_sketches) /\
  HllSet.__eq__ 0 VNone Demo.two_sketches = (Ok false, Demo.two_sketches).
Proof.
  split; [ | split ]; apply eq_non_sketch; reflexivity.
Defined.


(** * Further properties of the wrapper *)

(** ** Insertion *)

Lemma for_each_app {A} (body : A -> M unit) (xs ys : list A) s :
  for_each body (xs ++ ys) s = (for_each body xs ;;; for_each body ys) s.
Proof.
  revert s. induction xs as [|x xs IH]; intros s.
  - reflexivity.
  - cbn [app for_each]. rewrite bind_assoc.
    apply bind_ext. intros _ s1. apply IH.
Qed.

Section insertion.
Context {E : Engine}.

(** The two ways [add] can end on an instance that wraps a Julia object. *)
Lemma add_outcome self element s r s' :
  HllSet.add self element s = (r, s') ->
  (exists x, r = Raise x /\ s' = s) \/
  (exists o h index rank,
      r = Ok tt /\
      py_heap s !! self = Some o /\ jl_heap s !! Instance.hll o = Some h /\
      hash_element (jl_P h) element = Some (index, rank) /\
      s' = mk_store (py_heap s)
             (<[Instance.hll o :=
                  mk_jl (jl_P h) (Main.insert index rank (counts h))]>
                (jl_heap s))).
Proof.
  unfold HllSet.add, Main.add, bind, py_get, jl_get, jl_put, raise.
  destruct (py_heap s !! self) as [o|] eqn:Ho;
    [ | intros [= <- <-]; left; eauto ].
  destruct (jl_heap s !! Instance.hll o) as [h|] eqn:Hh;
    [ | intros [= <- <-]; left; eauto ].
  destruct (hash_element (jl_P h) element) as [[index rank]|] eqn:Hhash;
    [ | intros [= <- <-]; left; eauto ].
  rewrite Hh. intros [= <- <-]. right.
  exists o, h, index, rank. repeat split; assumption.
Qed.

(** X1.  Whatever way [add] ends, it writes to nothing but the Julia object
    of [self]: all instances keep their attributes, no object is created,
    every other Julia object is as before, and the object that was written
    keeps its precision.  When [add] raises, the store is the one before
    the call. *)
Theorem add_writes_one_object self element s r s' :
  HllSet.add self element s = (r, s') ->
  py_heap s' = py_heap s /\
  precisions s' = precisions s /\
  (forall o j, py_heap s !! self = Some o -> j <> Instance.hll o ->
               jl_heap s' !! j = jl_heap s !! j) /\
  (forall x, r = Raise x -> s' = s).
Proof.
  intros Hadd.
  destruct (add_outcome self element s r s' Hadd)
    as [(x & -> & ->) | (o & h & index & rank & -> & Ho & Hh & _ & ->)].
  - repeat split; reflexivity.
  - cbn [py_heap jl_heap]. unfold precisions. cbn [jl_heap].
    split; [ reflexivity | ]. split; [ | split ].
    + rewrite list_fmap_insert. cbn [jl_P].
      apply list_insert_id. rewrite list_lookup_fmap, Hh. reflexivity.
    + intros o' j Ho' Hj. rewrite Ho in Ho'. injection Ho' as <-.
      apply list_lookup_insert_ne. congruence.
    + intros x [=].
Qed.

(** X2.  [add] keeps every sketch a sketch: after the call, however it
    ended, each instance that was a sketch still is one, with the same
    attributes, over a Julia object of the same precision. *)
Theorem add_keeps_sketches self element s r s' l o h :
  HllSet.add self element s = (r, s') ->
  sketch s l o h ->
  exists h', sketch s' l o h' /\ jl_P h' = jl_P h.
Proof.
  intros Hadd ((Hl & Hh) & HP & Hrange).
  destruct (add_outcome self element s r s' Hadd)
    as [(x & -> & ->) | (o0 & h0 & index & rank & -> & Ho0 & Hh0 & _ & ->)].
  - exists h. repeat split; solve [ assumption | apply Hrange ].
  - destruct (decide (Instance.hll o = Instance.hll o0)) as [Heq|Hne].
    + rewrite Heq in Hh. rewrite Hh0 in Hh. injection Hh as ->.
      exists (mk_jl (jl_P h) (Main.insert index rank (counts h))).
      repeat split; cbn [py_heap jl_heap jl_P];
        try solve [ assumption | apply Hrange ].
      rewrite Heq. apply list_lookup_insert_eq. eapply lookup_lt_Some, Hh0.
    + exists h. repeat split; cbn [py_heap jl_heap];
        try solve [ assumption | apply Hrange ].
      rewrite list_lookup_insert_ne by congruence. exact Hh.
Qed.

(** X3.  A batch can be cut anywhere: [add_batch] on a concatenation is
    [add_batch] on the first part followed by [add_batch] on the second. *)
Theorem add_batch_app self xs ys s :
  HllSet.add_batch self (xs ++ ys) s
  = (HllSet.add_batch self xs ;;; HllSet.add_batch self ys) s.
Proof. unfold HllSet.add_batch. apply for_each_app. Qed.

(** X4.  [add_batch] is not all-or-nothing.  When the elements [xs] go in
    and the next element [bad] is refused, the batch raises that
    exception, the store is the one the insertions of [xs] left, so these
    stay inserted, and the elements after [bad] are never looked at. *)
Theorem add_batch_stops_at_first_failure self xs bad ys s s1 x s2 :
  HllSet.add_batch self xs s = (Ok tt, s1) ->
  HllSet.add self bad s1 = (Raise x, s2) ->
  HllSet.add_batch self (xs ++ bad :: ys) s = (Raise x, s1).
Proof.
  intros Hxs Hbad.
  assert (s2 = s1) as ->.
  { destruct (add_outcome self bad s1 _ _ Hbad)
      as [(x' & _ & ->) | (o & h & i & rk & [=] & _)]. reflexivity. }
  unfold HllSet.add_batch in *. rewrite for_each_app.
  rewrite (bind_Ok _ _ _ _ _ Hxs).
  cbn [for_each]. fold (HllSet.add self bad).
  now rewrite (bind_Raise _ _ _ _ _ Hbad).
Qed.

End insertion.

(** ** The results of the operators *)

Lemma preserved_app py jl news newj :
  preserved (mk_store py jl) (mk_store (py ++ news) (jl ++ newj)).
Proof. split; cbn [py_heap jl_heap]; apply prefix_app_r; reflexivity. Qed.

Lemma sketch_app py jl news newj l o h :
  sketch (mk_store py jl) l o h ->
  sketch (mk_store (py ++ news) (jl ++ newj)) l o h.
Proof.
  intros (Hw & HP & Hrange). split; [ | split; assumption ].
  now apply unchanged_app.
Qed.

Lemma sketch_new py jl news newj r i j R hr :
  r = (length py + i)%nat ->
  news !! i = Some R -> Instance.hll R = (length jl + j)%nat ->
  newj !! j = Some hr ->
  jl_P hr = Instance.P R ->
  Main.P_min <= Instance.P R <= Main.P_max ->
  sketch (mk_store (py ++ news) (jl ++ newj)) r R hr.
Proof.
  intros -> Hi Hhll Hj HP Hrange. split; [ | split; assumption ].
  split; cbn [py_heap jl_heap].
  - now apply lookup_app_new.
  - rewrite Hhll. now apply lookup_app_new.
Qed.

Section results.
Context {E : Engine}.

(** X5.  Every operator result takes its P from [self], also when [other]
    carries a different P, and its seed from the default of [from_julia],
    42: the seeds of the operands are not carried over. *)
Theorem results_take_P_and_default_seed s a b A B ha hb :
  wraps s a A ha -> wraps s b B hb -> jl_P ha = jl_P hb ->
  Main.P_min <= Instance.P A <= Main.P_max ->
  let stamped (R : Instance.t) :=
    Instance.P R = Instance.P A /\ Instance.seed R = 42 in
  (exists u s' U,
      HllSet.union a b s = (Ok u, s') /\
      py_heap s' !! u = Some U /\ stamped U) /\
  (exists i s' I,
      HllSet.intersection a b s = (Ok i, s') /\
      py_heap s' !! i = Some I /\ stamped I) /\
  (exists d r n s' D R N,
      HllSet.difference a b s = (Ok (d, r, n), s') /\
      py_heap s' !! d = Some D /\ py_heap s' !! r = Some R /\
      py_heap s' !! n = Some N /\ stamped D /\ stamped R /\ stamped N) /\
  (exists c s' C,
      HllSet.complement a b s = (Ok c, s') /\
      py_heap s' !! c = Some C /\ stamped C).
Proof.
  intros [Ha Hha] [Hb Hhb] HP HA stamped.
  destruct s as [py jl].
  cbn [py_heap jl_heap] in *.
  split; [ | split; [ | split ] ].
  - do 3 eexists. rewrite (union_effect a b A B ha hb py jl) by assumption.
    split; [ reflexivity | ]. cbn [py_heap].
    split; [ apply lookup_snoc_fresh | now split ].
  - do 3 eexists.
    rewrite (intersection_effect a b A B ha hb py jl) by assumption.
    split; [ reflexivity | ]. cbn [py_heap].
    split; [ apply lookup_snoc_fresh | now split ].
  - do 7 eexists.
    rewrite (difference_effect a b A B ha hb py jl) by assumption.
    split; [ reflexivity | ]. cbn [py_heap].
    split; [ apply (lookup_app_at py _ _ 0); [ lia | reflexivity ] | ].
    split; [ apply (lookup_app_at py _ _ 1); [ lia | reflexivity ] | ].
    split; [ apply (lookup_app_at py _ _ 2); [ lia | reflexivity ] | ].
    repeat split.
  - destruct (complement_effect a b A B ha hb py jl Ha Hb Hha Hhb HP HA)
      as [extra Hc].
    do 3 eexists. rewrite Hc.
    split; [ reflexivity | ]. cbn [py_heap].
    split; [ apply lookup_snoc_fresh | now split ].
Qed.

(** X6.  The operators are closed on sketches of one precision: each result
    is again a sketch of that precision, and it wraps the register array
    the Julia operator returned (OR for union, AND for intersection and
    for retained, AND-NOT for deleted, for new and for complement), not the
    blank one its constructor made.  The operands are sketches in the new
    store as well, so a result can be used as an operand. *)
Theorem results_are_sketches s a b A B ha hb :
  sketch s a A ha -> sketch s b B hb ->
  Instance.P A = Instance.P B ->
  let registers f := mk_jl (Instance.P A) (zip_with f (counts ha) (counts hb)) in
  (exists u s' U,
      HllSet.union a b s = (Ok u, s') /\
      sketch s' u U (registers Z.lor) /\
      sketch s' a A ha /\ sketch s' b B hb) /\
  (exists i s' I,
      HllSet.intersection a b s = (Ok i, s') /\
      sketch s' i I (registers Z.land) /\
      sketch s' a A ha /\ sketch s' b B hb) /\
  (exists d r n s' D R N,
      HllSet.difference a b s = (Ok (d, r, n), s') /\
      sketch s' d D (registers Z.ldiff) /\
      sketch s' r R (registers Z.land) /\
      sketch s' n N (registers (fun x y => Z.ldiff y x)) /\
      sketch s' a A ha /\ sketch s' b B hb) /\
  (exists c s' C,
      HllSet.complement a b s = (Ok c, s') /\
      sketch s' c C (registers Z.ldiff) /\
      sketch s' a A ha /\ sketch s' b B hb).
Proof.
  intros HsA HsB HPAB registers.
  pose proof (sketches_same_P s a b A B ha hb HsA HsB HPAB) as HP.
  destruct s as [py jl].
  pose proof HsA as ([Ha Hha] & HPA & HA). pose proof HsB as ([Hb Hhb] & _ & _).
  cbn [py_heap jl_heap] in *. unfold registers. rewrite <- HPA.
  split; [ | split; [ | split ] ].
  - do 3 eexists. rewrite (union_effect a b A B ha hb py jl) by assumption.
    split; [ reflexivity | ].
    split; [ | split; now apply sketch_app ].
    apply (sketch_new py jl _ _ _ 0 0);
      [ lia | reflexivity | cbn [Instance.hll]; lia | reflexivity
      | cbn [jl_P Instance.P]; assumption | cbn [Instance.P]; assumption ].
  - do 3 eexists.
    rewrite (intersection_effect a b A B ha hb py jl) by assumption.
    split; [ reflexivity | ].
    split; [ | split; now apply sketch_app ].
    apply (sketch_new py jl _ _ _ 0 0);
      [ lia | reflexivity | cbn [Instance.hll]; lia | reflexivity
      | cbn [jl_P Instance.P]; assumption | cbn [Instance.P]; assumption ].
  - do 7 eexists.
    rewrite (difference_effect a b A B ha hb py jl) by assumption.
    split; [ reflexivity | ].
    split; [ apply (sketch_new py jl _ _ _ 0 0);
      [ lia | reflexivity | cbn [Instance.hll]; lia | reflexivity
      | cbn [jl_P Instance.P]; assumption | cbn [Instance.P]; assumption ] | ].
    split; [ apply (sketch_new py jl _ _ _ 1 1);
      [ lia | reflexivity | cbn [Instance.hll]; lia | reflexivity
      | cbn [jl_P Instance.P]; assumption | cbn [Instance.P]; assumption ] | ].
    split; [ apply (sketch_new py jl _ _ _ 2 2);
      [ lia | reflexivity | cbn [Instance.hll]; lia | reflexivity
      | cbn [jl_P Instance.P]; assumption | cbn [Instance.P]; assumption ] | ].
    split; now apply sketch_app.
  - destruct (complement_effect a b A B ha hb py jl Ha Hb Hha Hhb HP HA)
      as [extra Hc].
    do 3 eexists. rewrite Hc.
    split; [ reflexivity | ].
    split; [ | split; now apply sketch_app ].
    apply (sketch_new py jl _ _ _ 0 0);
      [ lia | reflexivity | cbn [Instance.hll]; lia | reflexivity
      | cbn [jl_P Instance.P]; assumption | cbn [Instance.P]; assumption ].
Qed.

End results.

(** ** Metrics, equality and ready-made Julia objects *)

Lemma isequal_same_P a b x y py jl :
  jl !! a = Some x -> jl !! b = Some y -> jl_P x = jl_P y ->
  Main.isequal a b (mk_store py jl)
  = (Ok (bool_decide (counts x = counts y)), mk_store py jl).
Proof.
  intros Ha Hb HP. unfold Main.isequal. do 2 get.
  unfold Main.isequal_v. apply Z.eqb_eq in HP. now rewrite HP.
Qed.

Section metrics_and_equality.
Context {E : Engine}.

Lemma count_new py jl news newj r i j R hr :
  r = (length py + i)%nat ->
  news !! i = Some R -> Instance.hll R = (length jl + j)%nat ->
  newj !! j = Some hr ->
  HllSet.count r (mk_store (py ++ news) (jl ++ newj))
  = (Ok (estimate (counts hr)), mk_store (py ++ news) (jl ++ newj)).
Proof.
  intros -> Hi Hhll Hj. apply count_wraps with (o := R).
  split; cbn [py_heap jl_heap].
  - now apply lookup_app_new.
  - rewrite Hhll. now apply lookup_app_new.
Qed.

(** X7.  Computing the BSS metrics of two sketches of one precision changes
    no instance and no existing Julia object (it only allocates the
    intermediate Julia results), so asking again gives the same metrics. *)
Theorem metrics_can_be_asked_again s a b A B ha hb :
  wraps s a A ha -> wraps s b B hb -> jl_P ha = jl_P hb ->
  exists m s1 s2,
    HllSet.calculate_bss_to a b s = (Ok m, s1) /\
    py_heap s1 = py_heap s /\ preserved s s1 /\
    HllSet.calculate_bss_to a b s1 = (Ok m, s2).
Proof.
  destruct s as [py jl]. intros [Ha Hha] [Hb Hhb] HP.
  cbn [py_heap jl_heap] in *. unfold HllSet.calculate_bss_to.
  destruct (metrics_effect a b A B ha hb py jl Ha Hb Hha Hhb HP)
    as [extra Hm].
  destruct (metrics_effect a b A B ha hb py (jl ++ extra) Ha Hb
              (lookup_app_l_Some _ _ _ _ Hha) (lookup_app_l_Some _ _ _ _ Hhb)
              HP)
    as [extra' Hm'].
  do 3 eexists. rewrite Hm, Hm'.
  split; [ reflexivity | ]. split; [ reflexivity | ].
  split; [ | reflexivity ].
  rewrite <- (app_nil_r py) at 2. apply preserved_app.
Qed.

(** X8.  The BSS metrics agree with the public operators: when the count of
    B does not compare equal to zero, tau is the count of
    [A.intersection(B)] divided by the count of B, and rho is the count of
    the first result of [A.difference(B)] divided by the count of B. *)
Theorem metrics_agree_with_operators s a b A B ha hb :
  sketch s a A ha -> sketch s b B hb ->
  Instance.P A = Instance.P B ->
  is_zero (estimate (counts hb)) = false ->
  exists i s1 ci d r n s2 cd cb m s3,
    HllSet.intersection a b s = (Ok i, s1) /\
    HllSet.count i s1 = (Ok ci, s1) /\
    HllSet.difference a b s = (Ok (d, r, n), s2) /\
    HllSet.count d s2 = (Ok cd, s2) /\
    HllSet.count b s = (Ok cb, s) /\
    HllSet.calculate_bss_to a b s = (Ok m, s3) /\
    BSSMetrics.tau m = PrimFloat.div ci cb /\
    BSSMetrics.rho m = PrimFloat.div cd cb.
Proof.
  intros HsA HsB HPAB Hnz.
  pose proof (sketches_same_P s a b A B ha hb HsA HsB HPAB) as HP.
  destruct s as [py jl].
  destruct HsA as ([Ha Hha] & _ & HA), HsB as ([Hb Hhb] & _ & _).
  cbn [py_heap jl_heap] in *.
  do 11 eexists.
  rewrite (intersection_effect a b A B ha hb py jl) by assumption.
  rewrite (difference_effect a b A B ha hb py jl) by assumption.
  unfold HllSet.calculate_bss_to.
  rewrite (metrics_nonzero a b A B ha hb py jl) by assumption.
  split; [ reflexivity | ].
  split; [ eapply (count_new py jl _ _ _ 0 0);
           [ lia | reflexivity | cbn [Instance.hll]; lia | reflexivity ] | ].
  split; [ reflexivity | ].
  split; [ eapply (count_new py jl _ _ _ 0 0);
           [ lia | reflexivity | cbn [Instance.hll]; lia | reflexivity ] | ].
  split; [ apply (count_wraps _ b B hb); now split | ].
  split; [ reflexivity | ].
  split; reflexivity.
Qed.

End metrics_and_equality.

(** X9.  Equality of two sketches of one precision looks at the register
    arrays and at nothing else: the answer is True exactly when the
    registers agree, whatever P, tau, rho and seed the two instances carry,
    and the store is left as it was. *)
Theorem eq_compares_registers s a b A B ha hb :
  wraps s a A ha -> wraps s b B hb -> jl_P ha = jl_P hb ->
  exists r,
    HllSet.__eq__ a (VObj b) s = (Ok r, s) /\
    (r = true <-> counts ha = counts hb).
Proof.
  destruct s as [py jl]. intros [Ha Hha] [Hb Hhb] HP.
  cbn [py_heap jl_heap] in *.
  exists (bool_decide (counts ha = counts hb)). split.
  - unfold HllSet.__eq__. do 2 get.
    now apply isequal_same_P.
  - apply bool_decide_eq_true.
Qed.

(** X10.  [from_julia] wraps the Julia object it is given as it is: the new
    instance refers to that very object (no copy) and carries the P it was
    passed, which is not compared with the precision of the object.  Each
    call also allocates one blank Julia object, the one its constructor
    made, and changes nothing that existed. *)
Theorem from_julia_wraps_as_given julia_hll h P tau rho seed s :
  jl_heap s !! julia_hll = Some h ->
  Main.P_min <= P <= Main.P_max ->
  exists w s',
    HllSet.from_julia julia_hll P tau rho seed s = (Ok w, s') /\
    fresh_py s w /\
    wraps s' w (Instance.mk P tau rho seed julia_hll) h /\
    preserved s s' /\
    jl_heap s' = jl_heap s ++ [Main.blank P].
Proof.
  destruct s as [py jl]. cbn [py_heap jl_heap]. intros Hh HP.
  do 2 eexists. rewrite (from_julia_supported julia_hll P tau rho seed py jl HP).
  split; [ reflexivity | ].
  split; [ unfold fresh_py; cbn [py_heap]; apply lookup_ge_None_2; lia | ].
  split; [ | split; [ apply preserved_app | reflexivity ] ].
  split; cbn [py_heap jl_heap Instance.hll].
  - apply lookup_snoc_fresh.
  - now apply lookup_app_l_Some.
Qed.

(** X11.  The operators never compare the P attributes of their operands.
    What decides is the precision of the two Julia objects: when these
    agree and the P attribute of [self] is a supported precision, union,
    intersection, difference and complement all return, whatever the P
    attribute of [other] and whether or not the P attribute of [self] is
    the precision of its object. *)
Theorem operators_ignore_P_attributes {E : Engine} s a b A B ha hb :
  wraps s a A ha -> wraps s b B hb -> jl_P ha = jl_P hb ->
  Main.P_min <= Instance.P A <= Main.P_max ->
  (exists u s', HllSet.union a b s = (Ok u, s')) /\
  (exists i s', HllSet.intersection a b s = (Ok i, s')) /\
  (exists t s', HllSet.difference a b s = (Ok t, s')) /\
  (exists c s', HllSet.complement a b s = (Ok c, s')).
Proof.
  destruct s as [py jl]. intros [Ha Hha] [Hb Hhb] HP HA.
  cbn [py_heap jl_heap] in *.
  split; [ | split; [ | split ] ].
  - do 2 eexists. now apply (union_effect a b A B ha hb).
  - do 2 eexists. now apply (intersection_effect a b A B ha hb).
  - do 2 eexists. now apply (difference_effect a b A B ha hb).
  - destruct (complement_effect a b A B ha hb py jl Ha Hb Hha Hhb HP HA)
      as [extra Hc].
    do 2 eexists. exact Hc.
Qed.

(** ** Sharing a Julia object *)

Section sharing.
Context {E : Engine}.

Lemma add_hashed self element o h index rank py jl :
  py !! self = Some o -> jl !! Instance.hll o = Some h ->
  hash_element (jl_P h) element = Some (index, rank) ->
  HllSet.add self element (mk_store py jl)
  = (Ok tt,
     mk_store py
       (<[Instance.hll o := mk_jl (jl_P h) (Main.insert index rank (counts h))]>
          jl)).
Proof.
  intros Ho Hh Hhash. unfold HllSet.add, Main.add. do 2 get.
  rewrite Hhash. unfold jl_put. cbn [jl_heap py_heap]. now rewrite Hh.
Qed.

Lemma add_unhashable self element o h py jl :
  py !! self = Some o -> jl !! Instance.hll o = Some h ->
  hash_element (jl_P h) element = None ->
  HllSet.add self element (mk_store py jl) = (Raise InputError, mk_store py jl).
Proof.
  intros Ho Hh Hhash. unfold HllSet.add, Main.add. do 2 get.
  now rewrite Hhash.
Qed.

(** X12.  An instance made by [from_julia] from the Julia object of a
    sketch shares that object: an element added through the new instance
    is set in the registers the old instance reads, and after the call
    both wrap the same object.  (The operators, by contrast, return
    objects of their own.) *)
Theorem from_julia_shares_registers s a A ha P tau rho seed :
  wraps s a A ha ->
  Main.P_min <= P <= Main.P_max ->
  exists w s1,
    HllSet.from_julia (Instance.hll A) P tau rho seed s = (Ok w, s1) /\
    w <> a /\
    forall element,
    exists r s2 h',
      HllSet.add w element s1 = (r, s2) /\
      wraps s2 a A h' /\
      wraps s2 w (Instance.mk P tau rho seed (Instance.hll A)) h' /\
      match hash_element (jl_P ha) element with
      | Some (index, rank) =>
          r = Ok tt /\
          h' = mk_jl (jl_P ha) (Main.insert index rank (counts ha))
      | None => r = Raise InputError /\ h' = ha
      end.
Proof.
  destruct s as [py jl]. intros [Ha Hha] HP. cbn [py_heap jl_heap] in *.
  do 2 eexists.
  rewrite (from_julia_supported (Instance.hll A) P tau rho seed py jl HP).
  split; [ reflexivity | ].
  split; [ apply lookup_lt_Some in Ha; lia | ].
  intros element.
  assert ((py ++ [Instance.mk P tau rho seed (Instance.hll A)]) !! length py
          = Some (Instance.mk P tau rho seed (Instance.hll A))) as Hw
    by apply lookup_snoc_fresh.
  assert ((jl ++ [Main.blank P]) !! Instance.hll A = Some ha) as Hha'
    by now apply lookup_app_l_Some.
  destruct (hash_element (jl_P ha) element) as [[index rank]|] eqn:Hhash.
  - do 3 eexists.
    rewrite (add_hashed _ element _ ha index rank _ _ Hw Hha' Hhash).
    cbn [Instance.hll].
    split; [ reflexivity | ].
    assert (<[Instance.hll A :=
                mk_jl (jl_P ha) (Main.insert index rank (counts ha))]>
              (jl ++ [Main.blank P]) !! Instance.hll A
            = Some (mk_jl (jl_P ha) (Main.insert index rank (counts ha))))
      as Hnew by (apply list_lookup_insert_eq; eapply lookup_lt_Some, Hha').
    split; [ split; cbn [py_heap jl_heap];
             [ now apply lookup_app_l_Some | exact Hnew ] | ].
    split; [ split; cbn [py_heap jl_heap Instance.hll];
             [ exact Hw | exact Hnew ] | ].
    split; reflexivity.
  - do 3 eexists.
    rewrite (add_unhashable _ element _ ha _ _ Hw Hha' Hhash).
    split; [ reflexivity | ].
    split; [ split; cbn [py_heap jl_heap];
             [ now apply lookup_app_l_Some | exact Hha' ] | ].
    split; [ split; cbn [py_heap jl_heap Instance.hll];
             [ exact Hw | exact Hha' ] | ].
    split; reflexivity.
Qed.

End sharing.

(** ** Dicts that cannot be read, and start-up *)

Section unreadable.
Context {E : Engine}.

Lemma decoded_not_text x s :
  is_text x = false -> HllSet.decoded x s = (Raise UnicodeDecodeError, s).
Proof.
  destruct x; try discriminate. cbn [is_text HllSet.decoded].
  intros Hb. unfold decode. now rewrite Hb.
Qed.

Lemma loop_raises hll redis_data s :
  all_text redis_data = false ->
  exists e s',
    for_each (fun item : value * value =>
                let (key, value) := item in
                k <- HllSet.decoded key ;; HllSet.add hll k ;;;
                v <- HllSet.decoded value ;; HllSet.add hll v)
             redis_data s
    = (Raise e, s').
Proof.
  revert s. induction redis_data as [|[key val] rest IH]; intros s Htext.
  - discriminate Htext.
  - cbn [for_each]. rewrite bind_assoc.
    destruct (is_text key) eqn:Hkey.
    + rewrite (bind_Ok _ _ _ _ _ (decoded_text key s Hkey)).
      rewrite bind_assoc. unfold bind at 1.
      destruct (HllSet.add hll (as_text key) s) as [[[]|e] s1]; [ | eauto ].
      rewrite bind_assoc.
      destruct (is_text val) eqn:Hval.
      * rewrite (bind_Ok _ _ _ _ _ (decoded_text val s1 Hval)).
        unfold bind at 1.
        destruct (HllSet.add hll (as_text val) s1) as [[[]|e] s2]; [ | eauto ].
        apply IH. unfold all_text in *. cbn [forallb fst snd] in Htext.
        now rewrite Hkey, Hval in Htext.
      * rewrite (bind_Raise _ _ _ _ _ (decoded_not_text val s1 Hval)). eauto.
    + rewrite (bind_Raise _ _ _ _ _ (decoded_not_text key s Hkey)). eauto.
Qed.

(** X13.  [from_dict] never returns a sketch for a dict in which some bytes
    key or value is not valid UTF-8: wherever in the dict it stands, and
    whatever P, tau, rho and seed are, the call ends with an exception. *)
Theorem from_dict_unreadable redis_data P tau rho seed s :
  all_text redis_data = false ->
  exists e s', HllSet.from_dict redis_data P tau rho seed s = (Raise e, s').
Proof.
  intros Htext.
  destruct redis_data as [|item rest]; [ discriminate Htext | ].
  unfold HllSet.from_dict. unfold bind at 1.
  destruct (HllSet.__init__ P tau rho seed s) as [[hll|e] s1]; [ | eauto ].
  destruct (loop_raises hll (item :: rest) s1 Htext) as (e & s' & Hloop).
  rewrite (bind_Raise _ _ _ _ _ Hloop). eauto.
Qed.

End unreadable.

(** X14.  Start-up uses a non-empty HLLSETS_PATH as it is, without looking
    at the file system; an empty HLLSETS_PATH counts as an unset one; and
    the EnvironmentError is raised exactly when the variable is unset or
    empty and the bundled file does not exist. *)
Theorem startup_path env hllsets_jl file_exists :
  (forall c rest other_jl other_exists,
      env = Some (String c rest) ->
      Startup.hllsets_path env other_jl other_exists
      = Startup.Include (String c rest)) /\
  Startup.hllsets_path (Some EmptyString) hllsets_jl file_exists
  = Startup.hllsets_path None hllsets_jl file_exists /\
  ((exists tried,
       Startup.hllsets_path env hllsets_jl file_exists
       = Startup.EnvironmentError tried)
   <-> Startup.falsy env = true /\ file_exists = false) /\
  (Startup.falsy env = true -> file_exists = true ->
   Startup.hllsets_path env hllsets_jl file_exists
   = Startup.Include hllsets_jl).
Proof.
  split; [ | split; [ | split ] ].
  - intros c rest other_jl other_exists ->. reflexivity.
  - reflexivity.
  - unfold Startup.hllsets_path.
    destruct (Startup.falsy env), file_exists;
      (split;
       [ intros [tried Ht]; first [ discriminate Ht | now split ]
       | intros [H1 H2];
         first [ discriminate H1 | discriminate H2 | eexists; reflexivity ] ]).
  - intros Henv ->. unfold Startup.hllsets_path. now rewrite Henv.
Qed.

(** ** Dicts that can be read *)

Section readable.
Context {E : Engine}.

Lemma add_each_hashable l o es : forall h py jl,
  py !! l = Some o -> jl !! Instance.hll o = Some h ->
  Forall (fun e => hash_element (jl_P h) e <> None) es ->
  exists h',
    add_each l es (mk_store py jl)
    = (Ok tt, mk_store py (<[Instance.hll o := h']> jl)) /\
    jl_P h' = jl_P h.
Proof.
  induction es as [|e es IH]; intros h py jl Ho Hh Hes.
  - exists h. split; [ | reflexivity ].
    cbn [add_each]. unfold ret. now rewrite list_insert_id.
  - apply Forall_cons in Hes as [He Hes].
    destruct (hash_element (jl_P h) e) as [[index rank]|] eqn:Hhash;
      [ | congruence ].
    cbn [add_each].
    rewrite (bind_Ok _ _ _ _ _ (add_hashed l e o h index rank py jl Ho Hh Hhash)).
    destruct (IH (mk_jl (jl_P h) (Main.insert index rank (counts h))) py
                (<[Instance.hll o :=
                     mk_jl (jl_P h) (Main.insert index rank (counts h))]> jl)
                Ho)
      as (h' & Hrun & HP).
    + apply list_lookup_insert_eq. eapply lookup_lt_Some, Hh.
    + exact Hes.
    + exists h'. rewrite Hrun, list_insert_insert_eq. split; [ reflexivity | exact HP ].
Qed.

(** X15.  For a non-empty dict whose bytes are all valid UTF-8, a supported
    precision and elements the hash accepts, [from_dict] returns a new
    sketch that carries the P, tau, rho and seed it was passed (not the
    defaults) over a Julia object of precision P, and changes nothing that
    existed. *)
Theorem from_dict_builds_sketch redis_data P tau rho seed s :
  redis_data <> [] ->
  all_text redis_data = true ->
  Main.P_min <= P <= Main.P_max ->
  Forall (fun e => hash_element P e <> None) (flattened redis_data) ->
  exists l s' h,
    HllSet.from_dict redis_data P tau rho seed s = (Ok l, s') /\
    newly_allocated s s' l /\
    sketch s' l (Instance.mk P tau rho seed (length (jl_heap s))) h /\
    preserved s s'.
Proof.
  intros Hne Htext HP Hhash. destruct s as [py jl]. cbn [jl_heap].
  destruct redis_data as [|item rest]; [ congruence | ].
  destruct (add_each_hashable (length py)
              (Instance.mk P tau rho seed (length jl))
              (flattened (item :: rest)) (Main.blank P)
              (py ++ [Instance.mk P tau rho seed (length jl)])
              (jl ++ [Main.blank P]))
    as (h' & Hrun & HP').
  { apply lookup_snoc_fresh. }
  { cbn [Instance.hll]. apply lookup_snoc_fresh. }
  { exact Hhash. }
  cbn [Instance.hll] in Hrun.
  rewrite insert_app_r_alt, Nat.sub_diag in Hrun by lia. cbn [insert list_insert] in Hrun.
  exists (length py), (mk_store (py ++ [Instance.mk P tau rho seed (length jl)])
                               (jl ++ [h'])), h'.
  split.
  { unfold HllSet.from_dict.
    rewrite (bind_Ok _ _ _ _ _ (init_supported P tau rho seed py jl HP)).
    erewrite bind_Ok; [ reflexivity | ].
    rewrite (from_dict_loop _ (item :: rest) _ Htext). exact Hrun. }
  split.
  { eapply (newly_allocated_at py jl _ _ _ 0 0);
      [ lia | reflexivity | cbn [Instance.hll]; lia | reflexivity ]. }
  split; [ | apply preserved_app ].
  apply (sketch_new py jl _ _ _ 0 0);
    [ lia | reflexivity | cbn [Instance.hll]; lia | reflexivity
    | cbn [Instance.P]; exact HP' | cbn [Instance.P]; exact HP ].
Qed.

End readable.

(** * The further properties on concrete stores *)

Lemma scenario_twins :
  sketch Scenario.twins 0 Scenario.A Scenario.h /\
  sketch Scenario.twins 1 Scenario.B Scenario.h.
Proof.
  unfold sketch, wraps, Main.P_min, Main.P_max.
  repeat split; solve [ vm_compute; reflexivity | vm_compute; discriminate ].
Defined.

(** X1 on the demo sketches: the second sketch is not touched. *)
Lemma add_writes_one_object_witness :
  exists s',
    HllSet.add (E := Demo.engine) 0 (VInt 5) Demo.two_sketches = (Ok tt, s') /\
    py_heap s' = py_heap Demo.two_sketches /\
    jl_heap s' !! 1%nat = Some Demo.hB0 /\
    jl_heap s' !! 0%nat <> Some Demo.hA0.
Proof.
  exists (snd (HllSet.add (E := Demo.engine) 0 (VInt 5) Demo.two_sketches)).
  destruct (add_writes_one_object (E := Demo.engine) 0 (VInt 5)
              Demo.two_sketches (Ok tt)
              (snd (HllSet.add (E := Demo.engine) 0 (VInt 5) Demo.two_sketches))
              ltac:(vm_compute; reflexivity))
    as (Hpy & _ & Hother & _).
  split; [ vm_compute; reflexivity | ].
  split; [ exact Hpy | ].
  split.
  - rewrite (Hother Demo.A0 1%nat);
      [ vm_compute; reflexivity | vm_compute; reflexivity | discriminate ].
  - vm_compute. discriminate.
Defined.

(** X2 on the demo sketches. *)
Lemma add_keeps_sketches_witness :
  exists h',
    sketch (snd (HllSet.add (E := Demo.engine) 0 (VInt 5) Demo.two_sketches))
           0 Demo.A0 h' /\
    jl_P h' = 4.
Proof.
  exact (add_keeps_sketches (E := Demo.engine) 0 (VInt 5) Demo.two_sketches
           (Ok tt)
           (snd (HllSet.add (E := Demo.engine) 0 (VInt 5) Demo.two_sketches))
           0%nat Demo.A0 Demo.hA0
           ltac:(vm_compute; reflexivity) (proj1 demo_two_sketches)).
Defined.

(** X4 on the demo sketches: 5 goes in, the bytes object is refused, 6 is
    never tried. *)
Lemma add_batch_stops_at_first_failure_witness :
  HllSet.add_batch (E := Demo.engine) 0 [VInt 5; VBytes [x61]; VInt 6]
    Demo.two_sketches
  = (Raise InputError,
     snd (HllSet.add (E := Demo.engine) 0 (VInt 5) Demo.two_sketches)).
Proof.
  apply (add_batch_stops_at_first_failure (E := Demo.engine) 0
           [VInt 5] (VBytes [x61]) [VInt 6] Demo.two_sketches
           (snd (HllSet.add (E := Demo.engine) 0 (VInt 5) Demo.two_sketches))
           InputError
           (snd (HllSet.add (E := Demo.engine) 0 (VInt 5) Demo.two_sketches)));
    vm_compute; reflexivity.
Defined.

(** X5 on the first twin (P = 4, seed 7) and the relabelled instance
    (P = 10, seed 9): the result has P = 4 and seed 42. *)
Lemma results_take_P_and_default_seed_witness :
  exists u s' U,
    HllSet.union 0 2 Scenario.relabelled = (Ok u, s') /\
    py_heap s' !! u = Some U /\
    Instance.P U = 4 /\ Instance.seed U = 42 /\
    Instance.P Scenario.D = 10 /\
    Instance.seed Scenario.A = 7 /\ Instance.seed Scenario.D = 9.
Proof.
  destruct (results_take_P_and_default_seed (E := Demo.engine)
              Scenario.relabelled 0 2 Scenario.A Scenario.D
              Scenario.h Scenario.h)
    as ((u & s' & U & Hu & HU & HP & Hseed) & _).
  - split; vm_compute; reflexivity.
  - split; vm_compute; reflexivity.
  - reflexivity.
  - unfold Main.P_min, Main.P_max. cbn. lia.
  - exists u, s', U. split; [ exact Hu | ]. split; [ exact HU | ].
    split; [ exact HP | ]. split; [ exact Hseed | ].
    split; [ reflexivity | ]. split; reflexivity.
Defined.

(** X6 on the demo sketches, for union. *)
Lemma results_are_sketches_witness :
  exists u s' U,
    HllSet.union 0 1 Demo.two_sketches = (Ok u, s') /\
    sketch s' u U
      (mk_jl 4 [0; 0; 0; 1; 2; 4; 0; 0; 0; 0; 0; 0; 0; 0; 0; 0]) /\
    sketch s' 0 Demo.A0 Demo.hA0 /\ sketch s' 1 Demo.B0 Demo.hB0.
Proof.
  exact (proj1 (results_are_sketches (E := Demo.engine)
                  Demo.two_sketches 0 1 Demo.A0 Demo.B0 Demo.hA0 Demo.hB0
                  (proj1 demo_two_sketches) (proj2 demo_two_sketches)
                  eq_refl)).
Defined.

(** X7 on the demo sketches. *)
Lemma metrics_can_be_asked_again_witness :
  exists s1 s2,
    HllSet.calculate_bss_to (E := Demo.engine) 0 1 Demo.two_sketches
    = (Ok (BSSMetrics.mk 1%float 2%float), s1) /\
    HllSet.calculate_bss_to (E := Demo.engine) 0 1 s1
    = (Ok (BSSMetrics.mk 1%float 2%float), s2).
Proof.
  destruct (metrics_can_be_asked_again (E := Demo.engine)
              Demo.two_sketches 0 1 Demo.A0 Demo.B0 Demo.hA0 Demo.hB0
              (proj1 (proj1 demo_two_sketches))
              (proj1 (proj2 demo_two_sketches)) eq_refl)
    as (m & s1 & s2 & H1 & _ & _ & H2).
  exists s1, s2.
  assert (m = BSSMetrics.mk 1%float 2%float) as ->.
  { vm_compute in H1. injection H1 as <- _. reflexivity. }
  split; [ exact H1 | exact H2 ].
Defined.

(** X8 on the demo sketches: 1/1 and 2/1. *)
Lemma metrics_agree_with_operators_witness :
  exists i s1 d r n s2 m s3,
    HllSet.intersection 0 1 Demo.two_sketches = (Ok i, s1) /\
    HllSet.count (E := Demo.engine) i s1 = (Ok 1%float, s1) /\
    HllSet.difference 0 1 Demo.two_sketches = (Ok (d, r, n), s2) /\
    HllSet.count (E := Demo.engine) d s2 = (Ok 2%float, s2) /\
    HllSet.count (E := Demo.engine) 1 Demo.two_sketches
    = (Ok 1%float, Demo.two_sketches) /\
    HllSet.calculate_bss_to (E := Demo.engine) 0 1 Demo.two_sketches
    = (Ok m, s3) /\
    BSSMetrics.tau m = 1%float /\ BSSMetrics.rho m = 2%float.
Proof.
  destruct (metrics_agree_with_operators (E := Demo.engine)
              Demo.two_sketches 0 1 Demo.A0 Demo.B0 Demo.hA0 Demo.hB0
              (proj1 demo_two_sketches) (proj2 demo_two_sketches)
              eq_refl eq_refl)
    as (i & s1 & ci & d & r & n & s2 & cd & cb & m & s3
        & Hi & Hci & Hd & Hcd & Hcb & Hm & Htau & Hrho).
  assert (cb = 1%float) as ->.
  { vm_compute in Hcb. injection Hcb as <-. reflexivity. }
  assert (ci = 1%float) as ->.
  { vm_compute in Hi. injection Hi as <- <-.
    vm_compute in Hci. injection Hci as <-. reflexivity. }
  assert (cd = 2%float) as ->.
  { vm_compute in Hd. injection Hd as <- <- <- <-.
    vm_compute in Hcd. injection Hcd as <-. reflexivity. }
  exists i, s1, d, r, n, s2, m, s3.
  repeat (split; [ assumption | ]). exact Hrho.
Defined.

(** X9 on the twins: equal, although tau, rho and seed differ. *)
Lemma eq_compares_registers_witness :
  HllSet.__eq__ 0 (VObj 1) Scenario.twins = (Ok true, Scenario.twins) /\
  Instance.tau Scenario.A <> Instance.tau Scenario.B /\
  Instance.seed Scenario.A <> Instance.seed Scenario.B.
Proof.
  destruct (eq_compares_registers Scenario.twins 0 1
              Scenario.A Scenario.B Scenario.h Scenario.h
              (proj1 (proj1 scenario_twins)) (proj1 (proj2 scenario_twins))
              eq_refl)
    as (r & Heq & Hr).
  assert (r = true) as -> by (apply Hr; reflexivity).
  split; [ exact Heq | ].
  split.
  - intros Htau. apply (f_equal (fun x => PrimFloat.ltb x 0.85%float)) in Htau.
    vm_compute in Htau. discriminate Htau.
  - discriminate.
Defined.

(** X10 on the twins: the default P = 10 on an object of precision 4. *)
Lemma from_julia_wraps_as_given_witness :
  exists w s',
    HllSet.from_julia 1 10 0.7%float 0.21%float 42 Scenario.twins = (Ok w, s') /\
    fresh_py Scenario.twins w /\
    wraps s' w (Instance.mk 10 0.7%float 0.21%float 42 1) Scenario.h /\
    preserved Scenario.twins s' /\
    jl_heap s' = jl_heap Scenario.twins ++ [Main.blank 10] /\
    jl_P Scenario.h = 4.
Proof.
  destruct (from_julia_wraps_as_given 1 Scenario.h 10 0.7%float 0.21%float 42
              Scenario.twins)
    as (w & s' & Hrun & Hfresh & Hw & Hkept & Hjl).
  - vm_compute. reflexivity.
  - unfold Main.P_min, Main.P_max. lia.
  - exists w, s'. repeat (split; [ assumption | ]). reflexivity.
Defined.

(** X11 on an instance with P = 4 and one with P = 10 that wrap objects of
    precision 4: union returns. *)
Lemma operators_ignore_P_attributes_witness :
  Instance.P Scenario.A <> Instance.P Scenario.C /\
  (exists u s', HllSet.union 0 2 Scenario.mislabelled = (Ok u, s')) /\
  (exists c s',
      HllSet.complement (E := Demo.engine) 0 2 Scenario.mislabelled
      = (Ok c, s')).
Proof.
  destruct (operators_ignore_P_attributes (E := Demo.engine)
              Scenario.mislabelled 0 2
              Scenario.A Scenario.C Scenario.h Scenario.h)
    as (Hu & _ & _ & Hc).
  - split; vm_compute; reflexivity.
  - split; vm_compute; reflexivity.
  - reflexivity.
  - unfold Main.P_min, Main.P_max. cbn. lia.
  - split; [ discriminate | ]. split; [ exact Hu | exact Hc ].
Defined.

(** X12 on the twins: 19 added through the new instance is read through
    the old one. *)
Lemma from_julia_shares_registers_witness :
  exists w s1 s2,
    HllSet.from_julia 0 4 0.5%float 0.5%float 1 Scenario.twins = (Ok w, s1) /\
    HllSet.add (E := Demo.engine) w (VInt 19) s1 = (Ok tt, s2) /\
    wraps s2 0 Scenario.A
      (mk_jl 4 [0; 0; 0; 3; 0; 0; 0; 0; 0; 0; 0; 0; 0; 0; 0; 0]) /\
    wraps s2 w (Instance.mk 4 0.5%float 0.5%float 1 0)
      (mk_jl 4 [0; 0; 0; 3; 0; 0; 0; 0; 0; 0; 0; 0; 0; 0; 0; 0]).
Proof.
  destruct (from_julia_shares_registers (E := Demo.engine) Scenario.twins 0
              Scenario.A Scenario.h 4 0.5%float 0.5%float 1)
    as (w & s1 & Hrun & _ & Hadd).
  - exact (proj1 (proj1 scenario_twins)).
  - unfold Main.P_min, Main.P_max. lia.
  - destruct (Hadd (VInt 19)) as (r & s2 & h' & Hr & Ha & Hw & Hhash).
    vm_compute in Hhash. destruct Hhash as [-> ->].
    exists w, s1, s2. split; [ exact Hrun | ].
    split; [ exact Hr | ]. split; [ exact Ha | exact Hw ].
Defined.

(** X13 on a dict whose second entry cannot be decoded. *)
Lemma from_dict_unreadable_witness :
  exists e s',
    HllSet.from_dict (E := Demo.engine) Scenario.late_binary_dict
      4 0.7%float 0.21%float 42 Demo.empty
    = (Raise e, s').
Proof.
  apply (from_dict_unreadable (E := Demo.engine)). reflexivity.
Defined.

(** X15 on the text dict, with tau, rho and seed of the caller's. *)
Lemma from_dict_builds_sketch_witness :
  exists l s' h,
    HllSet.from_dict (E := Demo.engine) Demo.text_dict 4 0.9%float 0.1%float 7
      Demo.empty
    = (Ok l, s') /\
    newly_allocated Demo.empty s' l /\
    sketch s' l (Instance.mk 4 0.9%float 0.1%float 7 0) h /\
    preserved Demo.empty s'.
Proof.
  apply (from_dict_builds_sketch (E := Demo.engine) Demo.text_dict
           4 0.9%float 0.1%float 7 Demo.empty).
  - discriminate.
  - reflexivity.
  - unfold Main.P_min, Main.P_max. lia.
  - repeat constructor; discriminate.
Defined.

(** * Reading a dict, from the empty one to the sketch *)

Section from_dict_result.
Context {E : Engine}.



End from_dict_result.

